(** * Extab: the computer-use agent loop and its tool dispatcher

    A shallow embedding of [executeComputerAction] and
    [computerUseAgentLoop] (the "Computer Use Agent Loop" module of the
    TypeScript front end) together with the JavaScript operations these two
    functions rely on.

    Modelling choices.
    - JavaScript values are the inductive [value]; numbers are the integers
      they hold plus [NaN] (coordinates, scroll amounts, HTTP statuses and the
      iteration counter are integers far below 2^53, where doubles are exact).
      A character of a string stands for a code unit below 256.
    - What crosses the border of the module (replies, parameters, thrown
      values, the [params] object as the observer leaves it) is plain data:
      objects with accessor properties are outside the model.
    - The host (Tauri commands, the HTTP endpoint, the observer callback) is an
      abstract state [Host] with one transition function per capability.
    - Every function of the module runs in the monad [M]: it threads the host
      and the [messages] array, records every externally visible effect in a
      chronological trace, and ends normally, with a thrown value, or without
      fuel.
    - The generator is run to its end by a consumer that only collects the
      yielded events. *)

From Stdlib Require Import ZArith String Ascii List Bool Lia DecimalString.
From Stdlib Require Import DecimalPos DecimalZ.
Import ListNotations.

Local Open Scope string_scope.
Local Open Scope list_scope.
Local Open Scope Z_scope.

Set Implicit Arguments.
Set Warnings "-register-all,-notation-for-abbreviation".

(** ** JavaScript values *)

Inductive number : Type :=
| Int (z : Z)
| NaN.

Inductive value : Type :=
| Undefined
| Null
| Bool (b : bool)
| Num (n : number)
| Str (s : string)
| Arr (items : list value)
| Obj (props : list (string * value)).

(** The own properties of an object, in insertion order. *)
Definition fields : Type := list (string * value).

(** What the engine raises by itself while the module runs. *)
Inductive type_error : Type :=
| ReadOfNullish (base : value) (key : string)
    (* property [key] read on [base], which is undefined or null *)
| NotIterable                    (* for-of over a value that is no iterable *)
| NotAFunction (key : string).   (* call of a property that is no function *)

(** A thrown value: an [Error] instance with its message, a [TypeError] of the
    engine, or any other value (a rejected Tauri command carries the
    serialised error of the command). *)
Inductive thrown : Type :=
| ErrorObj (message : string)
| TypeErr (why : type_error)
| Other (v : value).

Module Js.

Definition decimal (z : Z) : string := NilZero.string_of_int (Z.to_int z).

(** The decimal numeral of an integer is what the engine prints for the
    integers up to 2^53 in magnitude, the range of the model; beyond it the
    engine prints the shortest numeral that identifies the double. *)
Definition number_to_string (n : number) : string :=
  match n with
  | Int z => decimal z
  | NaN => "NaN"
  end.

Fixpoint join (sep : string) (l : list string) : string :=
  match l with
  | [] => ""
  | [s] => s
  | s :: rest => (s ++ sep ++ join sep rest)%string
  end.

(** [String(v)] and template-literal interpolation. *)
Fixpoint to_string (v : value) : string :=
  match v with
  | Undefined => "undefined"
  | Null => "null"
  | Bool true => "true"
  | Bool false => "false"
  | Num n => number_to_string n
  | Str s => s
  | Arr items =>
      join "," (map (fun item =>
                       match item with
                       | Undefined | Null => ""
                       | _ => to_string item
                       end) items)
  | Obj _ => "[object Object]"
  end.

(** Own property of an object literal; [undefined] when absent. *)
Fixpoint lookup (props : fields) (key : string) : value :=
  match props with
  | [] => Undefined
  | (k, v) :: rest => if String.eqb k key then v else lookup rest key
  end.

(** [obj.key = v]: overwrite in place, or add at the end. *)
Fixpoint set_field (key : string) (v : value) (props : fields) : fields :=
  match props with
  | [] => [(key, v)]
  | (k, w) :: rest =>
      if String.eqb k key then (k, v) :: rest
      else (k, w) :: set_field key v rest
  end.

(** [v.key] for the property names the module reads ([content],
    [stop_reason], [type], [text], [thinking], [id], [input], [action]):
    none of them exists on strings, arrays, numbers or booleans. *)
Definition get (v : value) (key : string) : thrown + value :=
  match v with
  | Undefined | Null => inl (TypeErr (ReadOfNullish v key))
  | Obj props => inr (lookup props key)
  | _ => inr Undefined
  end.

Definition chars (s : string) : list value :=
  map (fun c => Str (String c EmptyString)) (list_ascii_of_string s).

(** [v?.[i]] *)
Definition index_opt (v : value) (i : nat) : value :=
  match v with
  | Arr items => nth i items Undefined
  | Str s => nth i (chars s) Undefined
  | Obj props => lookup props (decimal (Z.of_nat i))
  | _ => Undefined
  end.

(** [v[i]] *)
Definition index (v : value) (i : nat) : thrown + value :=
  match v with
  | Undefined | Null => inl (TypeErr (ReadOfNullish v (decimal (Z.of_nat i))))
  | _ => inr (index_opt v i)
  end.

Definition truthy (v : value) : bool :=
  match v with
  | Undefined | Null | Bool false | Num (Int 0) | Num NaN | Str "" => false
  | _ => true
  end.

(** [a || b] *)
Definition or (a b : value) : value := if truthy a then a else b.

(** [v === "s"] *)
Definition is_string (v : value) (s : string) : bool :=
  match v with
  | Str s' => String.eqb s' s
  | _ => false
  end.

Fixpoint indexed (i : nat) (items : list value) : fields :=
  match items with
  | [] => []
  | item :: rest => (decimal (Z.of_nat i), item) :: indexed (S i) rest
  end.

(** The own enumerable properties that [{...v}] copies. *)
Definition spread (v : value) : fields :=
  match v with
  | Obj props => props
  | Arr items => indexed 0 items
  | Str s => indexed 0 (chars s)
  | _ => []
  end.

(** The sequence a [for ... of] loop walks. *)
Definition iterate (v : value) : thrown + list value :=
  match v with
  | Arr items => inr items
  | Str s => inr (chars s)
  | _ => inl (TypeErr NotIterable)
  end.

(** The receiver of [v.filter(...)]. *)
Definition filter_receiver (v : value) : thrown + list value :=
  match v with
  | Arr items => inr items
  | Undefined | Null => inl (TypeErr (ReadOfNullish v "filter"))
  | _ => inl (TypeErr (NotAFunction "filter"))
  end.

Section Coercion.

(** The numeric value of a string literal (StringToNumber). *)
Variable string_to_number : string -> number.

Definition to_number (v : value) : number :=
  match v with
  | Undefined => NaN
  | Null => Int 0
  | Bool true => Int 1
  | Bool false => Int 0
  | Num n => n
  | Str s => string_to_number s
  | Arr _ | Obj _ => string_to_number (to_string v)
  end.

(** Unary minus. *)
Definition negate (v : value) : value :=
  match to_number v with
  | Int z => Num (Int (- z))
  | NaN => Num NaN
  end.

End Coercion.

End Js.

(** ** Data of the module *)

Inductive result_content : Type :=
| Text (s : string)
| Image (media_type data : string).  (* one base64 image block *)

(** [interface ToolResult]; [tr_is_error] is [None] where the literal leaves
    [is_error] out. *)
Record ToolResult : Type := {
  tr_tool_use_id : value;
  tr_content : result_content;
  tr_is_error : option bool
}.

Inductive role : Type := user | assistant.

Inductive message_content : Type :=
| Plain (s : string)                  (* the seed message *)
| Blocks (reply : value)              (* [data.content], as received *)
| Results (results : list ToolResult).

(** [interface Message] *)
Record Message : Type := {
  msg_role : role;
  msg_content : message_content
}.

(** [interface ComputerUseTool] *)
Record ComputerUseTool : Type := {
  tool_type : string;
  tool_name : string;
  display_width_px : Z;
  display_height_px : Z;
  display_number : option Z
}.

(** Modelled from the spec: the type [ComputerUseConfig] of "@/types", whose
    declaration is not among the sources; its fields are the ones the settings
    panel writes (the panel stores [parseInt] results that are positive). *)
Record ComputerUseConfig : Type := {
  enabled : bool;
  model : string;
  displayWidth : Z;
  displayHeight : Z;
  maxIterations : Z;
  showLiveFeedback : bool
}.

(** The request handed to [tauriFetch]; [req_body] is the object given to
    [JSON.stringify]. *)
Record RequestBody : Type := {
  body_model : string;
  body_max_tokens : Z;
  body_messages : list Message;
  body_tools : list ComputerUseTool;
  body_system : option string
}.

Record Request : Type := {
  req_url : string;
  req_method : string;
  req_headers : list (string * string);
  req_body : RequestBody
}.

(** The part of a fetch [Response] the loop uses: [text()] and [json()] give
    their value or reject. *)
Record Response : Type := {
  ok : bool;
  status : Z;
  text : thrown + string;
  json : thrown + value
}.

Inductive event_type : Type :=
| EvText | EvAction | EvThinking | EvError | EvComplete.

Inductive event_data : Type :=
| IterationData (iteration : Z)
| ActionData (action params : value).

(** What the generator yields. *)
Record Event : Type := {
  ev_type : event_type;
  ev_content : value;
  ev_data : option event_data
}.

(** Externally visible steps, in the order they happen. *)
Inductive Effect : Type :=
| Yield (e : Event)
| Fetch (r : Request)
| Invoke (cmd : string) (args : fields)
| Observe (action : value) (params : fields)
| ConsoleError (label : string) (error : thrown).

(** *** Reading a trace *)

Definition events (t : list Effect) : list Event :=
  flat_map (fun e => match e with Yield ev => [ev] | _ => [] end) t.

Definition fetches (t : list Effect) : list Request :=
  flat_map (fun e => match e with Fetch r => [r] | _ => [] end) t.

Definition invocations (t : list Effect) : list (string * fields) :=
  flat_map (fun e => match e with Invoke cmd args => [(cmd, args)] | _ => [] end) t.

(** The counters carried by the iteration events. *)
Definition iteration_counters (t : list Effect) : list Z :=
  flat_map (fun ev => match ev_data ev with
                      | Some (IterationData n) => [n]
                      | _ => []
                      end) (events t).

(** An event that ends a session. *)
Definition terminal (ev : Event) : bool :=
  match ev_type ev with
  | EvError | EvComplete => true
  | _ => false
  end.

(** What can happen between the endpoint call of a round and its end: no
    endpoint call, no iteration event, no terminal event. *)
Definition inner_effect (e : Effect) : Prop :=
  match e with
  | Yield ev =>
      terminal ev = false
      /\ match ev_data ev with Some (IterationData _) => False | _ => True end
  | Fetch _ => False
  | _ => True
  end.

(** The run of a callback [(action, params) => void]: the host it leaves,
    the properties of the [params] object when it is done, and what it threw,
    if anything. The properties are data properties; a callback that
    installs an accessor on [params] is outside the model. *)
Record Observed (Host : Type) : Type := {
  obs_host : Host;
  obs_params : fields;
  obs_thrown : option thrown
}.

(** The reply of the wire contract, [{content: ContentBlock[], stop_reason}]:
    an object whose [content] is an array of text, thinking and tool_use
    blocks and whose [stop_reason] is a string. *)
Definition is_block (v : value) : bool :=
  match v with
  | Obj props =>
      existsb (Js.is_string (Js.lookup props "type"))
              ["text"; "thinking"; "tool_use"]
  | _ => false
  end.

Definition expected_shape (data : value) : bool :=
  match data with
  | Obj props =>
      match Js.lookup props "content", Js.lookup props "stop_reason" with
      | Arr blocks, Str _ => forallb is_block blocks
      | _, _ => false
      end
  | _ => false
  end.

(** ** The settings panel

    The handlers of [ComputerUseSettings]: each one is the update it hands to
    [setComputerUseConfig], a function of the previous configuration, or no
    update at all. *)

Module Settings.

(** The value of a character as a digit, for radices up to 36. *)
Definition digit_of (c : ascii) : option Z :=
  let n := Z.of_N (N_of_ascii c) in
  if (48 <=? n) && (n <=? 57) then Some (n - 48)
  else if (97 <=? n) && (n <=? 122) then Some (n - 87)
  else if (65 <=? n) && (n <=? 90) then Some (n - 55)
  else None.

Definition is_digit (radix : Z) (c : ascii) : bool :=
  match digit_of c with
  | Some d => d <? radix
  | None => false
  end.

(** The white space [parseInt] skips, among the code units below 256 that
    a character of the model stands for: tab, line feed, vertical tab, form
    feed, carriage return, space and the no-break space. *)
Definition is_space (c : ascii) : bool :=
  let n := Z.of_N (N_of_ascii c) in
  ((9 <=? n) && (n <=? 13)) || (n =? 32) || (n =? 160).

Fixpoint skip_spaces (s : string) : string :=
  match s with
  | String c rest => if is_space c then skip_spaces rest else s
  | EmptyString => s
  end.

(** The number the longest prefix of digits of [s] denotes, read after the
    digits that gave [acc]. *)
Fixpoint accumulate (radix acc : Z) (s : string) : Z :=
  match s with
  | String c rest =>
      match digit_of c with
      | Some d =>
          if d <? radix then accumulate radix (acc * radix + d) rest else acc
      | None => acc
      end
  | EmptyString => acc
  end.

Definition starts_with_digit (radix : Z) (s : string) : bool :=
  match s with
  | String c _ => is_digit radix c
  | EmptyString => false
  end.

(** The double nearest to an integer, ties going to the even significand
    of 53 bits: what the engine makes of the integer a numeral denotes. An
    integer up to 2^53 in magnitude is a double itself. The integers from
    2^1024 - 2^970 on, which the engine reads as [Infinity], are outside
    the model. *)
Definition nearest_double (z : Z) : Z :=
  let a := Z.abs z in
  if a <=? 2 ^ 53 then z
  else
    let e := Z.log2 a - 52 in
    let q := Z.shiftr a e in
    let r := a - Z.shiftl q e in
    let half := Z.shiftl 1 (e - 1) in
    let rounded :=
      if r <? half then q
      else if half <? r then q + 1
      else if Z.even q then q else q + 1 in
    Z.sgn z * Z.shiftl rounded e.

(** [parseInt(value)], without a radix: white space, a sign, "0x" or "0X"
    for radix 16, then the longest prefix of digits, read as the nearest
    double; [NaN] without a digit. The sign of a zero result is not
    kept. *)
Definition parseInt (value : string) : number :=
  let s := skip_spaces value in
  let signed :=
    match s with
    | String "-" rest => (-1, rest)
    | String "+" rest => (1, rest)
    | _ => (1, s)
    end in
  let prefixed :=
    match snd signed with
    | String "0" (String "x" rest) => (16, rest)
    | String "0" (String "X" rest) => (16, rest)
    | _ => (10, snd signed)
    end in
  if starts_with_digit (fst prefixed) (snd prefixed)
  then Int (nearest_double
              (fst signed * accumulate (fst prefixed) 0 (snd prefixed)))
  else NaN.

(** [!isNaN(n) && n > 0] *)
Definition accepted (n : number) : option Z :=
  match n with
  | Int z => if 0 <? z then Some z else None
  | NaN => None
  end.

Definition handleEnabledChange (enabled : bool)
           (prev : ComputerUseConfig) : ComputerUseConfig :=
  {| enabled := enabled;
     model := model prev;
     displayWidth := displayWidth prev;
     displayHeight := displayHeight prev;
     maxIterations := maxIterations prev;
     showLiveFeedback := showLiveFeedback prev |}.

Definition handleDisplayWidthChange (value : string)
           (prev : ComputerUseConfig) : ComputerUseConfig :=
  match accepted (parseInt value) with
  | Some width =>
      {| enabled := enabled prev;
         model := model prev;
         displayWidth := width;
         displayHeight := displayHeight prev;
         maxIterations := maxIterations prev;
         showLiveFeedback := showLiveFeedback prev |}
  | None => prev
  end.

Definition handleDisplayHeightChange (value : string)
           (prev : ComputerUseConfig) : ComputerUseConfig :=
  match accepted (parseInt value) with
  | Some height =>
      {| enabled := enabled prev;
         model := model prev;
         displayWidth := displayWidth prev;
         displayHeight := height;
         maxIterations := maxIterations prev;
         showLiveFeedback := showLiveFeedback prev |}
  | None => prev
  end.

Definition handleModelChange (model : string)
           (prev : ComputerUseConfig) : ComputerUseConfig :=
  {| enabled := enabled prev;
     model := model;
     displayWidth := displayWidth prev;
     displayHeight := displayHeight prev;
     maxIterations := maxIterations prev;
     showLiveFeedback := showLiveFeedback prev |}.

Definition handleMaxIterationsChange (value : string)
           (prev : ComputerUseConfig) : ComputerUseConfig :=
  match accepted (parseInt value) with
  | Some iterations =>
      {| enabled := enabled prev;
         model := model prev;
         displayWidth := displayWidth prev;
         displayHeight := displayHeight prev;
         maxIterations := iterations;
         showLiveFeedback := showLiveFeedback prev |}
  | None => prev
  end.

Definition handleLiveFeedbackChange (showLiveFeedback : bool)
           (prev : ComputerUseConfig) : ComputerUseConfig :=
  {| enabled := enabled prev;
     model := model prev;
     displayWidth := displayWidth prev;
     displayHeight := displayHeight prev;
     maxIterations := maxIterations prev;
     showLiveFeedback := showLiveFeedback |}.

(** What the user does in the panel. *)
Inductive change : Type :=
| ToggleEnabled (enabled : bool)
| TypeWidth (value : string)
| TypeHeight (value : string)
| SelectModel (model : string)
| TypeMaxIterations (value : string)
| ToggleLiveFeedback (showLiveFeedback : bool).

Definition handle (c : change) : ComputerUseConfig -> ComputerUseConfig :=
  match c with
  | ToggleEnabled enabled => handleEnabledChange enabled
  | TypeWidth value => handleDisplayWidthChange value
  | TypeHeight value => handleDisplayHeightChange value
  | SelectModel model => handleModelChange model
  | TypeMaxIterations value => handleMaxIterationsChange value
  | ToggleLiveFeedback showLiveFeedback =>
      handleLiveFeedbackChange showLiveFeedback
  end.

(** The configuration after a series of changes. *)
Definition after (changes : list change) (config : ComputerUseConfig)
  : ComputerUseConfig :=
  fold_left (fun config c => handle c config) changes config.

(** The three numbers of the configuration are positive. *)
Definition positive_numbers (config : ComputerUseConfig) : Prop :=
  0 < displayWidth config /\ 0 < displayHeight config
  /\ 0 < maxIterations config.


End Settings.

(** ** Probes of the host

    What [shouldUseExtabAPI] does to the host, in order. *)
Inductive Probe : Type :=
| ReadItem (key : string)
| Command (cmd : string) (args : fields)
| ConsoleWarn (label : string) (error : thrown).

Definition commands (log : list Probe) : list string :=
  flat_map (fun p => match p with Command cmd _ => [cmd] | _ => [] end) log.

Section License.

Variable Host : Type.

(** [safeLocalStorage.getItem] of "../storage" and the key
    [STORAGE_KEYS.EXTAB_API_ENABLED] of "@/config", both outside the
    sources, and Tauri's [invoke] for a command whose answer is no string. *)
Variable getItem : string -> Host -> thrown + option string.
Variable EXTAB_API_ENABLED : string.
Variable invoke_value : string -> fields -> Host -> Host * (thrown + value).

Definition license_warning (error : thrown) : Probe :=
  ConsoleWarn "Failed to check Extab API availability:" error.

(** [shouldUseExtabAPI]: the host afterwards, what was done, and the value
    the promise resolves to. *)
Definition shouldUseExtabAPI (h : Host) : Host * list Probe * value :=
  match getItem EXTAB_API_ENABLED h with
  | inl error =>
      (h, [ReadItem EXTAB_API_ENABLED; license_warning error], Bool false)
  | inr item =>
      let extabApiEnabled :=
        match item with
        | Some s => String.eqb s "true"
        | None => false
        end in
      if negb extabApiEnabled then
        (h, [ReadItem EXTAB_API_ENABLED], Bool false)
      else
        match invoke_value "check_license_status" [] h with
        | (h', inl error) =>
            (h', [ReadItem EXTAB_API_ENABLED;
                  Command "check_license_status" [];
                  license_warning error], Bool false)
        | (h', inr hasLicense) =>
            (h', [ReadItem EXTAB_API_ENABLED;
                  Command "check_license_status" []], hasLicense)
        end
  end.

End License.

(** ** A small host to run the module on *)

Module Demo.

(** The host counts the endpoint calls made so far; the endpoint answers
    the n-th call with [script n]. *)
Definition Host : Type := nat.

Definition endpoint (script : nat -> thrown + Response)
           (r : Request) (calls : Host) : Host * (thrown + Response) :=
  (S calls, script calls).

Definition invoke_ok (cmd : string) (args : fields) (h : Host)
  : Host * (thrown + string) := (h, inr "ok").

Definition invoke_denied (cmd : string) (args : fields) (h : Host)
  : Host * (thrown + string) := (h, inl (Other (Str "permission denied"))).

(** The empty string and decimal integer literals; [NaN] for the rest. *)
Definition string_to_number (s : string) : number :=
  match s with
  | "" => Int 0
  | _ =>
      match NilZero.int_of_string s with
      | Some d => Int (Z.of_int d)
      | None => NaN
      end
  end.

Definition engine_message (why : type_error) : string :=
  match why with
  | ReadOfNullish base key =>
      ("Cannot read properties of " ++ Js.to_string base
         ++ " (reading '" ++ key ++ "')")%string
  | NotIterable => "object is not iterable"
  | NotAFunction key => (key ++ " is not a function")%string
  end.

Definition observer_quiet : value -> fields -> Host -> Observed Host :=
  fun _ params h =>
    {| obs_host := h; obs_params := params; obs_thrown := None |}.

Definition observer_throws : value -> fields -> Host -> Observed Host :=
  fun _ params h =>
    {| obs_host := h; obs_params := params;
       obs_thrown := Some (ErrorObj "observer failed") |}.


(** [(action, params) => { params.scroll_amount = 500; }] *)
Definition observer_scrolls_far : value -> fields -> Host -> Observed Host :=
  fun _ params h =>
    {| obs_host := h;
       obs_params := Js.set_field "scroll_amount" (Num (Int 500)) params;
       obs_thrown := None |}.

Definition config (max : Z) : ComputerUseConfig :=
  {| enabled := true;
     model := "claude-sonnet-4-5-20250929";
     displayWidth := 1024;
     displayHeight := 768;
     maxIterations := max;
     showLiveFeedback := true |}.

Definition tool_use (id action : string) (rest : fields) : value :=
  Obj [("type", Str "tool_use"); ("id", Str id); ("name", Str "computer");
       ("input", Obj (("action", Str action) :: rest))].

Definition reply (content : list value) (stop_reason : string) : value :=
  Obj [("content", Arr content); ("stop_reason", Str stop_reason)].

Definition success (data : value) : thrown + Response :=
  inr {| ok := true; status := 200; text := inr ""; json := inr data |}.

Definition point (x y : Z) : value := Arr [Num (Int x); Num (Int y)].

Definition narration (s : string) : value :=
  Obj [("type", Str "text"); ("text", Str s)].

(** One click requested, more to come. *)
Definition click_blocks : list value :=
  [narration "Opening the menu.";
   tool_use "toolu_1" "left_click" [("coordinate", point 10 20)]].

Definition asks_click : value := reply click_blocks "tool_use".




Definition overloaded : Response :=
  {| ok := false; status := 529; text := inr "overloaded";
     json := inl (ErrorObj "Unexpected end of JSON input") |}.

Definition not_json : Response :=
  {| ok := true; status := 200; text := inr "<html>";
     json := inl (ErrorObj "Unexpected token '<'") |}.

(** A body that parses, with a [content] that holds no block and without
    [stop_reason]. *)
Definition odd_reply : value := Obj [("content", Arr [Num (Int 42)])].

Definition always (r : thrown + Response) : nat -> thrown + Response :=
  fun _ => r.

(** The parameters of a scroll as the loop hands them to the dispatcher. *)
Definition scroll_params (direction : string) (amount : Z) : fields :=
  [("action", Str "scroll"); ("scroll_direction", Str direction);
   ("scroll_amount", Num (Int amount)); ("tool_use_id", Str "toolu_2")].

Definition click_params : fields :=
  [("action", Str "left_click"); ("coordinate", point 10 20);
   ("tool_use_id", Str "toolu_1")].

End Demo.

(** ** The monad of the module *)

Inductive result (A : Type) : Type :=
| Ok (a : A)
| Throw (e : thrown)
| OutOfFuel.

Arguments Throw {A} e.
Arguments OutOfFuel {A}.

Section ComputerUse.

Variable Host : Type.

(** Tauri's [invoke]: a command of the Rust side, resolved or rejected. *)
Variable invoke : string -> fields -> Host -> Host * (thrown + string).

(** [tauriFetch] of the HTTP plugin. *)
Variable tauriFetch : Request -> Host -> Host * (thrown + Response).

Variable string_to_number : string -> number.

(** The message text of an engine [TypeError]. *)
Variable engine_message : type_error -> string.

Definition Observer : Type := value -> fields -> Host -> Observed Host.

Record State : Type := {
  host : Host;
  messages : list Message
}.

Definition M (A : Type) : Type := State -> State * list Effect * result A.

Definition ret {A} (a : A) : M A := fun s => (s, [], Ok a).

Definition throw {A} (e : thrown) : M A := fun s => (s, [], Throw e).

Definition out_of_fuel {A} : M A := fun s => (s, [], OutOfFuel).

Definition bind {A B} (m : M A) (k : A -> M B) : M B :=
  fun s =>
    match m s with
    | (s1, t1, Ok a) =>
        match k a s1 with
        | (s2, t2, r) => (s2, t1 ++ t2, r)
        end
    | (s1, t1, Throw e) => (s1, t1, Throw e)
    | (s1, t1, OutOfFuel) => (s1, t1, OutOfFuel)
    end.

(** [try { m } catch (error) { handler error }] *)
Definition try_catch {A} (m : M A) (handler : thrown -> M A) : M A :=
  fun s =>
    match m s with
    | (s1, t1, Throw e) =>
        match handler e s1 with
        | (s2, t2, r) => (s2, t1 ++ t2, r)
        end
    | other => other
    end.

Definition lift {A} (r : thrown + A) : M A :=
  match r with
  | inl e => throw e
  | inr a => ret a
  end.

Definition emit (e : Effect) : M unit := fun s => (s, [e], Ok tt).

Definition yield (e : Event) : M unit := emit (Yield e).

Definition console_error (label : string) (error : thrown) : M unit :=
  emit (ConsoleError label error).

Definition push (m : Message) : M unit :=
  fun s => ({| host := host s; messages := messages s ++ [m] |}, [], Ok tt).

Definition get_messages : M (list Message) :=
  fun s => (s, [], Ok (messages s)).

Definition call_invoke (cmd : string) (args : fields) : M string :=
  fun s =>
    match invoke cmd args (host s) with
    | (h, r) =>
        ({| host := h; messages := messages s |}, [Invoke cmd args],
         match r with inl e => Throw e | inr v => Ok v end)
    end.

Definition call_fetch (r : Request) : M Response :=
  fun s =>
    match tauriFetch r (host s) with
    | (h, res) =>
        ({| host := h; messages := messages s |}, [Fetch r],
         match res with inl e => Throw e | inr v => Ok v end)
    end.

(** [if (onActionExecuted) onActionExecuted(action, params)]: gives back the
    properties of [params] afterwards and what the callback threw. *)
Definition notify (onActionExecuted : option Observer)
           (action : value) (params : fields) : M (fields * option thrown) :=
  match onActionExecuted with
  | None => ret (params, None)
  | Some callback =>
      fun s =>
        let o := callback action params (host s) in
        ({| host := obs_host o; messages := messages s |},
         [Observe action params],
         Ok (obs_params o, obs_thrown o))
  end.

(** [error instanceof Error ? error.message : String(error)] *)
Definition error_text (error : thrown) : string :=
  match error with
  | ErrorObj message => message
  | TypeErr why => engine_message why
  | Other v => Js.to_string v
  end.

Notation "x <- m ;; k" := (bind m (fun x => k))
  (at level 61, m at next level, right associativity).
Notation "m ;; k" := (bind m (fun _ => k))
  (at level 61, right associativity).

(** ** [executeComputerAction] *)

(** The [switch (action)] statement; [params] is the object as the callback
    left it. *)
Definition switch_action (action : value) (params : fields) : M ToolResult :=
  if Js.is_string action "screenshot" then
    base64Image <- call_invoke "capture_to_base64" [] ;;
    ret {| tr_tool_use_id := Js.lookup params "tool_use_id";
           tr_content := Image "image/jpeg" base64Image;
           tr_is_error := None |}
  else if Js.is_string action "mouse_move" then
    x <- lift (Js.index (Js.lookup params "coordinate") 0) ;;
    y <- lift (Js.index (Js.lookup params "coordinate") 1) ;;
    result <- call_invoke "computer_mouse_move" [("x", x); ("y", y)] ;;
    ret {| tr_tool_use_id := Js.lookup params "tool_use_id";
           tr_content := Text result;
           tr_is_error := None |}
  else if Js.is_string action "left_click" then
    x <- lift (Js.index (Js.lookup params "coordinate") 0) ;;
    y <- lift (Js.index (Js.lookup params "coordinate") 1) ;;
    result <- call_invoke "computer_mouse_click"
                [("x", x); ("y", y); ("button", Str "left")] ;;
    ret {| tr_tool_use_id := Js.lookup params "tool_use_id";
           tr_content := Text result;
           tr_is_error := None |}
  else if Js.is_string action "right_click" then
    x <- lift (Js.index (Js.lookup params "coordinate") 0) ;;
    y <- lift (Js.index (Js.lookup params "coordinate") 1) ;;
    result <- call_invoke "computer_mouse_click"
                [("x", x); ("y", y); ("button", Str "right")] ;;
    ret {| tr_tool_use_id := Js.lookup params "tool_use_id";
           tr_content := Text result;
           tr_is_error := None |}
  else if Js.is_string action "middle_click" then
    x <- lift (Js.index (Js.lookup params "coordinate") 0) ;;
    y <- lift (Js.index (Js.lookup params "coordinate") 1) ;;
    result <- call_invoke "computer_mouse_click"
                [("x", x); ("y", y); ("button", Str "middle")] ;;
    ret {| tr_tool_use_id := Js.lookup params "tool_use_id";
           tr_content := Text result;
           tr_is_error := None |}
  else if Js.is_string action "double_click" then
    x <- lift (Js.index (Js.lookup params "coordinate") 0) ;;
    y <- lift (Js.index (Js.lookup params "coordinate") 1) ;;
    result <- call_invoke "computer_mouse_double_click" [("x", x); ("y", y)] ;;
    ret {| tr_tool_use_id := Js.lookup params "tool_use_id";
           tr_content := Text result;
           tr_is_error := None |}
  else if Js.is_string action "left_click_drag" then
    fromX <- lift (Js.index (Js.lookup params "start_coordinate") 0) ;;
    fromY <- lift (Js.index (Js.lookup params "start_coordinate") 1) ;;
    toX <- lift (Js.index (Js.lookup params "end_coordinate") 0) ;;
    toY <- lift (Js.index (Js.lookup params "end_coordinate") 1) ;;
    result <- call_invoke "computer_mouse_drag"
                [("fromX", fromX); ("fromY", fromY); ("toX", toX); ("toY", toY)] ;;
    ret {| tr_tool_use_id := Js.lookup params "tool_use_id";
           tr_content := Text result;
           tr_is_error := None |}
  else if Js.is_string action "scroll" then
    let scrollY :=
      if Js.is_string (Js.lookup params "scroll_direction") "down"
      then Js.lookup params "scroll_amount"
      else Js.negate string_to_number (Js.lookup params "scroll_amount") in
    result <- call_invoke "computer_mouse_scroll"
                [("x", Js.or (Js.index_opt (Js.lookup params "coordinate") 0)
                              (Num (Int 0)));
                 ("y", Js.or (Js.index_opt (Js.lookup params "coordinate") 1)
                              (Num (Int 0)));
                 ("scrollX", Num (Int 0));
                 ("scrollY", scrollY)] ;;
    ret {| tr_tool_use_id := Js.lookup params "tool_use_id";
           tr_content := Text result;
           tr_is_error := None |}
  else if Js.is_string action "type" then
    result <- call_invoke "computer_keyboard_type"
                [("text", Js.lookup params "text")] ;;
    ret {| tr_tool_use_id := Js.lookup params "tool_use_id";
           tr_content := Text result;
           tr_is_error := None |}
  else if Js.is_string action "key" then
    result <- call_invoke "computer_keyboard_key"
                [("key", Js.lookup params "text")] ;;
    ret {| tr_tool_use_id := Js.lookup params "tool_use_id";
           tr_content := Text result;
           tr_is_error := None |}
  else
    ret {| tr_tool_use_id := Js.lookup params "tool_use_id";
           tr_content := Text ("Unsupported action: " ++ Js.to_string action)%string;
           tr_is_error := Some true |}.

(** The [catch (error)] block of [executeComputerAction]. *)
Definition action_failed (action : value) (params : fields)
           (error : thrown) : M ToolResult :=
  console_error ("Error executing " ++ Js.to_string action ++ ":")%string error ;;
  ret {| tr_tool_use_id := Js.lookup params "tool_use_id";
         tr_content := Text ("Error: " ++ error_text error)%string;
         tr_is_error := Some true |}.

(** The [try] statement from the point where the callback is done:
    [raised] is what the callback threw, [params] the object as it left it. *)
Definition try_switch (action : value) (params : fields)
           (raised : option thrown) : M ToolResult :=
  try_catch
    (match raised with
     | Some error => throw error
     | None => switch_action action params
     end)
    (action_failed action params).

(** The callback runs first, inside the [try]; what it throws is handled by
    the [catch] like a failure of the action. *)
Definition executeComputerAction (action : value) (params : fields)
           (onActionExecuted : option Observer) : M ToolResult :=
  seen <- notify onActionExecuted action params ;;
  try_switch action (fst seen) (snd seen).

(** ** [computerUseAgentLoop] *)

(** How an iteration of the [while] loop ends: with the generator's
    [return], or at the end of the body. *)
Inductive flow : Type := Return | Continue.

Section Session.

Variable config : ComputerUseConfig.
Variable apiKey : string.
Variable systemPrompt : option string.
Variable onActionExecuted : option Observer.

Definition tools : list ComputerUseTool :=
  [ {| tool_type := "computer_20250124";
       tool_name := "computer";
       display_width_px := displayWidth config;
       display_height_px := displayHeight config;
       display_number := Some 1 |} ].

Definition request (messages : list Message) : Request :=
  {| req_url := "https://api.anthropic.com/v1/messages";
     req_method := "POST";
     req_headers :=
       [ ("Content-Type", "application/json");
         ("x-api-key", apiKey);
         ("anthropic-version", "2023-06-01");
         ("anthropic-beta", "computer-use-2025-01-24");
         ("anthropic-dangerous-direct-browser-access", "true") ];
     req_body :=
       {| body_model := model config;
          body_max_tokens := 4096;
          body_messages := messages;
          body_tools := tools;
          body_system := systemPrompt |} |}.

Definition iteration_event (iterations : Z) : Event :=
  {| ev_type := EvAction;
     ev_content := Str ("Iteration " ++ Js.decimal iterations ++ "/"
                          ++ Js.decimal (maxIterations config))%string;
     ev_data := Some (IterationData iterations) |}.

Definition api_error_event (response : Response) (errorText : string) : Event :=
  {| ev_type := EvError;
     ev_content := Str ("API Error: " ++ Js.decimal (status response)
                          ++ " - " ++ errorText)%string;
     ev_data := None |}.

Definition complete_event : Event :=
  {| ev_type := EvComplete;
     ev_content := Str "Task completed successfully";
     ev_data := None |}.

Definition executing_event (action input : value) : Event :=
  {| ev_type := EvAction;
     ev_content := Str ("Executing: " ++ Js.to_string action)%string;
     ev_data := Some (ActionData action input) |}.

Definition budget_event : Event :=
  {| ev_type := EvError;
     ev_content := Str ("Reached maximum iterations ("
                          ++ Js.decimal (maxIterations config) ++ ")")%string;
     ev_data := None |}.

Definition failure_event (error : thrown) : Event :=
  {| ev_type := EvError;
     ev_content := Str ("Error: " ++ error_text error)%string;
     ev_data := None |}.

(** [for (const block of data.content)]: the text and thinking events. *)
Fixpoint emit_blocks (blocks : list value) : M unit :=
  match blocks with
  | [] => ret tt
  | block :: rest =>
      type <- lift (Js.get block "type") ;;
      (if Js.is_string type "text" then
         text <- lift (Js.get block "text") ;;
         yield {| ev_type := EvText; ev_content := text; ev_data := None |}
       else if Js.is_string type "thinking" then
         thinking <- lift (Js.get block "thinking") ;;
         yield {| ev_type := EvThinking; ev_content := thinking;
                  ev_data := None |}
       else ret tt) ;;
      emit_blocks rest
  end.

(** [.filter((block) => block.type === "tool_use")] *)
Fixpoint filter_tool_use (blocks : list value) : thrown + list value :=
  match blocks with
  | [] => inr []
  | block :: rest =>
      match Js.get block "type" with
      | inl error => inl error
      | inr type =>
          match filter_tool_use rest with
          | inl error => inl error
          | inr kept =>
              inr (if Js.is_string type "tool_use" then block :: kept
                   else kept)
          end
      end
  end.

(** [for (const toolUse of toolUses)], with [toolResults] so far. *)
Fixpoint execute_all (toolUses : list value) (toolResults : list ToolResult)
  : M (list ToolResult) :=
  match toolUses with
  | [] => ret toolResults
  | toolUse :: rest =>
      input <- lift (Js.get toolUse "input") ;;
      action <- lift (Js.get input "action") ;;
      yield (executing_event action input) ;;
      id <- lift (Js.get toolUse "id") ;;
      result <- executeComputerAction action
                  (Js.set_field "tool_use_id" id (Js.spread input))
                  onActionExecuted ;;
      execute_all rest (toolResults ++ [result])
  end.

(** The round from [const data = await response.json()] on. *)
Definition on_reply (data : value) : M flow :=
  content <- lift (Js.get data "content") ;;
  push {| msg_role := assistant; msg_content := Blocks content |} ;;
  blocks <- lift (Js.iterate content) ;;
  emit_blocks blocks ;;
  items <- lift (Js.filter_receiver content) ;;
  toolUses <- lift (filter_tool_use items) ;;
  match toolUses with
  | [] =>
      yield complete_event ;;
      ret Return
  | _ :: _ =>
      toolResults <- execute_all toolUses [] ;;
      push {| msg_role := user; msg_content := Results toolResults |} ;;
      stop_reason <- lift (Js.get data "stop_reason") ;;
      if Js.is_string stop_reason "end_turn" then
        yield complete_event ;;
        ret Return
      else ret Continue
  end.

(** The round from [if (!response.ok)] on. *)
Definition on_response (response : Response) : M flow :=
  if negb (ok response) then
    errorText <- lift (text response) ;;
    yield (api_error_event response errorText) ;;
    ret Return
  else
    data <- lift (json response) ;;
    on_reply data.

(** The body of the [while] loop; [iterations] is the counter after
    [iterations++]. *)
Definition round (iterations : Z) : M flow :=
  yield (iteration_event iterations) ;;
  messages <- get_messages ;;
  response <- call_fetch (request messages) ;;
  on_response response.

(** [while (iterations < config.maxIterations) { ... }] followed by the
    statement after the loop. *)
Fixpoint while_loop (fuel : nat) (iterations : Z) : M unit :=
  if iterations <? maxIterations config then
    match fuel with
    | O => out_of_fuel
    | S fuel' =>
        let iterations := iterations + 1 in
        next <- round iterations ;;
        match next with
        | Return => ret tt
        | Continue => while_loop fuel' iterations
        end
    end
  else yield budget_event.

(** The [catch (error)] block of the loop. *)
Definition loop_failed (error : thrown) : M unit :=
  console_error "Computer use agent loop error:" error ;;
  yield (failure_event error).

Definition seed (userMessage : string) : list Message :=
  [ {| msg_role := user; msg_content := Plain userMessage |} ].

(** The [try] statement of the generator, entered at the loop test with
    the counter at [iterations]. *)
Definition resume (fuel : nat) (iterations : Z) : M unit :=
  try_catch (while_loop fuel iterations) loop_failed.

(** The generator run to its end from host [h]: the final host and
    [messages], the trace, and how the run ended. *)
Definition computerUseAgentLoop (userMessage : string) (h : Host)
  : State * list Effect * result unit :=
  resume (Z.to_nat (maxIterations config)) 0
         {| host := h; messages := seed userMessage |}.


(** ** Vocabulary of the statements *)

Definition state_of {A} (x : State * list Effect * result A) : State :=
fst (fst x).
Definition trace_of {A} (x : State * list Effect * result A) : list Effect :=
snd (fst x).
Definition outcome_of {A} (x : State * list Effect * result A) : result A :=
snd x.

(** The case labels of the [switch]. *)
Definition supported_actions : list string :=
[ "screenshot"; "mouse_move"; "left_click"; "right_click"; "middle_click";
  "double_click"; "left_click_drag"; "scroll"; "type"; "key" ].

Definition supported (action : value) : bool :=
existsb (Js.is_string action) supported_actions.

Definition nullish (v : value) : bool :=
match v with
| Undefined | Null => true
| _ => false
end.






(** What the callback throws on this call, if there is one and it throws. *)
Definition thrown_by (cb : option Observer)
         (action : value) (params : fields) (h : Host) : option thrown :=
match cb with
| None => None
| Some f => obs_thrown (f action params h)
end.

(** The callback, when there is one, returns normally on this call. *)
Definition returns_normally (cb : option Observer)
         (action : value) (params : fields) (h : Host) : Prop :=
thrown_by cb action params h = None.

Definition observed (cb : option Observer)
         (action : value) (params : fields) : list Effect :=
match cb with
| None => []
| Some _ => [Observe action params]
end.

(** The [params] object and the host after the callback. *)
Definition params_after (cb : option Observer)
         (action : value) (params : fields) (h : Host) : fields :=
match cb with
| None => params
| Some f => obs_params (f action params h)
end.

Definition host_after (cb : option Observer)
         (action : value) (params : fields) (h : Host) : Host :=
match cb with
| None => h
| Some f => obs_host (f action params h)
end.

(** The callback, when there is one, returns normally on this call and
  leaves the [params] object as it got it. *)
Definition undisturbed (cb : option Observer)
         (action : value) (params : fields) (h : Host) : Prop :=
returns_normally cb action params h
/\ params_after cb action params h = params.

(** The arguments of the [computer_mouse_scroll] command. *)
Definition scroll_args (x y dy : value) : fields :=
[("x", x); ("y", y); ("scrollX", Num (Int 0)); ("scrollY", dy)].


(** A computation of the inner part of a round: it stays within
  [inner_effect], leaves [messages] alone and does not need fuel. *)
Definition within {A} (m : M A) : Prop :=
forall s,
  Forall inner_effect (trace_of (m s))
  /\ messages (state_of (m s)) = messages s
  /\ outcome_of (m s) <> OutOfFuel.


(** A computation that yields no iteration event and does not need fuel. *)
Definition calm {A} (m : M A) : Prop :=
forall s,
  iteration_counters (trace_of (m s)) = []
  /\ outcome_of (m s) <> OutOfFuel.

(** The turns a round appends. *)
Definition assistant_turn (content : value) : Message :=
{| msg_role := assistant; msg_content := Blocks content |}.

Definition results_turn (toolResults : list ToolResult) : Message :=
{| msg_role := user; msg_content := Results toolResults |}.



(** The counters [from + 1, ..., from + n]. *)
Definition counters_after (from : Z) (n : nat) : list Z :=
map (fun i => from + Z.of_nat i) (seq 1 n).


(** ** Further vocabulary *)

(** Every effect of a computation satisfies [P]. *)
Definition only (P : Effect -> Prop) {A} (m : M A) : Prop :=
forall s, Forall P (trace_of (m s)).

(** A computation only ever appends to [messages]. *)
Definition grows {A} (m : M A) : Prop :=
forall s, exists added, messages (state_of (m s)) = messages s ++ added.

Definition no_invoke (e : Effect) : Prop :=
match e with Invoke _ _ => False | _ => True end.

Definition no_fetch (e : Effect) : Prop :=
match e with Fetch _ => False | _ => True end.


(** No terminal event. *)
Definition in_progress (e : Effect) : Prop :=
match e with Yield ev => terminal ev = false | _ => True end.




(** The actions that read [params.coordinate]. *)
Definition pointer_actions : list string :=
[ "mouse_move"; "left_click"; "right_click"; "middle_click";
  "double_click" ].

Definition same_role (a b : role) : bool :=
match a, b with
| user, user | assistant, assistant => true
| _, _ => false
end.

Definition other_role (a : role) : role :=
match a with
| user => assistant
| assistant => user
end.

(** The roles of [turns] alternate, from [expected] on. *)
Fixpoint alternates (expected : role) (turns : list Message) : bool :=
match turns with
| [] => true
| turn :: rest =>
    same_role (msg_role turn) expected
    && alternates (other_role expected) rest
end.

(** A transcript the endpoint can be called with: user and assistant turns
  alternate, from a user turn to a user turn. *)
Definition well_turned (turns : list Message) : Prop :=
alternates user turns = true /\ Nat.odd (length turns) = true.

(** A run that ends with one terminal event, the only one it yields. *)
Definition ends_with_terminal (t : list Effect) : Prop :=
exists before ev,
  t = before ++ [Yield ev]
  /\ terminal ev = true
  /\ Forall in_progress before.

(** A part of a round: when it ends the session, its last effect is the
  one terminal event; otherwise it yields no terminal event. *)
Definition settles (m : M flow) : Prop :=
forall s,
  match m s with
  | (_, t, Ok Return) => ends_with_terminal t
  | (_, t, Ok Continue) => Forall in_progress t
  | (_, t, Throw _) => Forall in_progress t
  | (_, _, OutOfFuel) => False
  end.

(** A computation that yields no terminal event and does not need fuel. *)
Definition quiet {A} (m : M A) : Prop :=
forall s,
  Forall in_progress (trace_of (m s))
  /\ outcome_of (m s) <> OutOfFuel.




Unset Implicit Arguments.

(** ** The monad *)

Lemma events_app (t1 t2 : list Effect) :
events (t1 ++ t2) = events t1 ++ events t2.
Proof. apply flat_map_app. Qed.

Lemma fetches_app (t1 t2 : list Effect) :
fetches (t1 ++ t2) = fetches t1 ++ fetches t2.
Proof. apply flat_map_app. Qed.

Lemma invocations_app (t1 t2 : list Effect) :
invocations (t1 ++ t2) = invocations t1 ++ invocations t2.
Proof. apply flat_map_app. Qed.

Lemma iteration_counters_app (t1 t2 : list Effect) :
iteration_counters (t1 ++ t2) = iteration_counters t1 ++ iteration_counters t2.
Proof.
unfold iteration_counters. rewrite events_app. apply flat_map_app.
Qed.

Lemma inner_no_counters (t : list Effect) :
Forall inner_effect t -> iteration_counters t = [].
Proof.
induction 1 as [|e t He _ IH]; [reflexivity|].
change (e :: t) with ([e] ++ t). rewrite iteration_counters_app, IH, app_nil_r.
destruct e as [ev| | | |]; try reflexivity.
destruct He as [_ He]. unfold iteration_counters. simpl.
destruct (ev_data ev) as [[n|a p]|]; simpl in *; try reflexivity.
contradiction.
Qed.



Lemma within_ret {A} (a : A) : within (ret a).
Proof. intro s. cbn. repeat split; [constructor | discriminate]. Qed.

Lemma within_throw {A} (e : thrown) : within (@throw A e).
Proof. intro s. cbn. repeat split; [constructor | discriminate]. Qed.

Lemma within_lift {A} (r : thrown + A) : within (lift r).
Proof. destruct r; [apply within_throw | apply within_ret]. Qed.

Lemma within_bind {A B} (m : M A) (k : A -> M B) :
within m -> (forall a, within (k a)) -> within (bind m k).
Proof.
intros Hm Hk s. specialize (Hm s). unfold bind.
destruct (m s) as [[s1 t1] [a| e|]]; cbn in *.
- destruct Hm as (Ht & Hs & _). specialize (Hk a s1).
  destruct (k a s1) as [[s2 t2] r]; cbn in *.
  destruct Hk as (Ht2 & Hs2 & Hr). repeat split; auto.
  + apply Forall_app; auto.
  + congruence.
- destruct Hm as (Ht & Hs & _). repeat split; auto. discriminate.
- destruct Hm as (_ & _ & Hr). contradiction.
Qed.

Lemma within_try_catch {A} (m : M A) (handler : thrown -> M A) :
within m -> (forall e, within (handler e)) -> within (try_catch m handler).
Proof.
intros Hm Hh s. specialize (Hm s). unfold try_catch.
destruct (m s) as [[s1 t1] [a| e|]]; cbn in *; auto.
destruct Hm as (Ht & Hs & _). specialize (Hh e s1).
destruct (handler e s1) as [[s2 t2] r]; cbn in *.
destruct Hh as (Ht2 & Hs2 & Hr). repeat split; auto.
- apply Forall_app; auto.
- congruence.
Qed.

Lemma within_emit (e : Effect) : inner_effect e -> within (emit e).
Proof.
intros He s. cbn. repeat split; [repeat constructor; exact He | discriminate].
Qed.

Lemma within_call_invoke (cmd : string) (args : fields) :
within (call_invoke cmd args).
Proof.
intro s. unfold call_invoke. destruct (invoke cmd args (host s)) as [h [e|v]];
  cbn; repeat split; try discriminate; repeat constructor.
Qed.

Lemma within_notify (cb : option Observer) (action : value) (params : fields) :
within (notify cb action params).
Proof.
destruct cb as [f|]; [|apply within_ret].
intro s. cbn. repeat split; try discriminate; repeat constructor.
Qed.

Ltac within_step :=
first
  [ apply within_ret
  | apply within_throw
  | apply within_lift
  | apply within_call_invoke
  | apply within_notify
  | apply within_emit; simpl; tauto
  | apply within_bind; [| intro]
  | match goal with
    | |- within (if ?c then _ else _) => destruct c
    | |- within (match ?x with _ => _ end) => destruct x
    | |- within (let _ := _ in _) => cbv zeta
    end ].



(** ** [executeComputerAction] *)

Lemma within_switch_action (action : value) (params : fields) :
within (switch_action action params).
Proof. unfold switch_action. repeat within_step. Qed.

Lemma within_action_failed (action : value) (params : fields) (error : thrown) :
within (action_failed action params error).
Proof. unfold action_failed, console_error. repeat within_step. Qed.

Lemma within_executeComputerAction action params cb :
within (executeComputerAction action params cb).
Proof.
unfold executeComputerAction.
apply within_bind; [apply within_notify | intro seen].
unfold try_switch. apply within_try_catch.
- destruct (snd seen); [apply within_throw | apply within_switch_action].
- intro e. apply within_action_failed.
Qed.




Lemma state_eta (s : State) : {| host := host s; messages := messages s |} = s.
Proof. destruct s; reflexivity. Qed.

(** [executeComputerAction] is the callback followed by the guarded
  [switch]. *)
Lemma executeComputerAction_run action params cb s :
executeComputerAction action params cb s
= match try_switch action (params_after cb action params (host s))
                   (thrown_by cb action params (host s))
                   {| host := host_after cb action params (host s);
                      messages := messages s |}
  with
  | (s', t, r) => (s', observed cb action params ++ t, r)
  end.
Proof.
unfold executeComputerAction, bind. destruct cb as [f|]; cbn -[try_switch].
- destruct (try_switch _ _ _ _) as [[s' t] r]. reflexivity.
- rewrite state_eta. destruct (try_switch _ _ _ _) as [[s' t] r].
  reflexivity.
Qed.

Lemma unsupported_switch action params s :
supported action = false ->
switch_action action params s
= (s, [],
   Ok {| tr_tool_use_id := Js.lookup params "tool_use_id";
         tr_content := Text ("Unsupported action: " ++ Js.to_string action);
         tr_is_error := Some true |}).
Proof.
unfold supported, supported_actions, existsb. intro H.
repeat (apply orb_false_elim in H; destruct H as [? H]).
unfold switch_action.
repeat match goal with E : Js.is_string action _ = false |- _ =>
                         rewrite E; clear E end.
reflexivity.
Qed.

(** C7 (amended). An action whose name is outside the ten case labels of
  the [switch] is answered, without a throw and without a call of the
  Action Executor, by a tool result with [is_error: true] and content
  "Unsupported action: <name>", when there is no observer or the observer
  returns normally with [params] as they were. *)
Theorem unsupported_action_is_reported name params cb s :
supported (Str name) = false ->
undisturbed cb (Str name) params (host s) ->
exists s' t r,
  executeComputerAction (Str name) params cb s = (s', t, Ok r)
  /\ tr_tool_use_id r = Js.lookup params "tool_use_id"
  /\ tr_is_error r = Some true
  /\ tr_content r = Text ("Unsupported action: " ++ name)
  /\ invocations t = [].
Proof.
intros Hu [Hn Hp]. rewrite executeComputerAction_run.
unfold returns_normally in Hn. rewrite Hn, Hp.
unfold try_switch, try_catch. rewrite unsupported_switch by exact Hu.
do 3 eexists. split; [reflexivity|]. cbn. repeat split.
rewrite app_nil_r. destruct cb; reflexivity.
Qed.

Lemma scroll_switch params s :
switch_action (Str "scroll") params s
= let args :=
    scroll_args
      (Js.or (Js.index_opt (Js.lookup params "coordinate") 0) (Num (Int 0)))
      (Js.or (Js.index_opt (Js.lookup params "coordinate") 1) (Num (Int 0)))
      (if Js.is_string (Js.lookup params "scroll_direction") "down"
       then Js.lookup params "scroll_amount"
       else Js.negate string_to_number (Js.lookup params "scroll_amount")) in
  match invoke "computer_mouse_scroll" args (host s) with
  | (h, inr result) =>
      ({| host := h; messages := messages s |},
       [Invoke "computer_mouse_scroll" args],
       Ok {| tr_tool_use_id := Js.lookup params "tool_use_id";
             tr_content := Text result;
             tr_is_error := None |})
  | (h, inl e) =>
      ({| host := h; messages := messages s |},
       [Invoke "computer_mouse_scroll" args], Throw e)
  end.
Proof.
unfold switch_action. cbn -[Js.or Js.index_opt Js.negate Js.lookup].
unfold bind, call_invoke, scroll_args. cbv zeta.
destruct (invoke _ _ (host s)) as [h [e|result]]; reflexivity.
Qed.

Lemma scroll_invocations params cb s :
returns_normally cb (Str "scroll") params (host s) ->
let seen := params_after cb (Str "scroll") params (host s) in
invocations (trace_of (executeComputerAction (Str "scroll") params cb s))
= [("computer_mouse_scroll",
    scroll_args
      (Js.or (Js.index_opt (Js.lookup seen "coordinate") 0) (Num (Int 0)))
      (Js.or (Js.index_opt (Js.lookup seen "coordinate") 1) (Num (Int 0)))
      (if Js.is_string (Js.lookup seen "scroll_direction") "down"
       then Js.lookup seen "scroll_amount"
       else Js.negate string_to_number (Js.lookup seen "scroll_amount")))].
Proof.
intros Hn seen. rewrite executeComputerAction_run.
unfold returns_normally in Hn. rewrite Hn. fold seen.
unfold try_switch, try_catch. rewrite scroll_switch. cbv zeta.
cbn [host messages].
destruct (invoke _ _ _) as [h [e|result]];
  cbn -[Js.or Js.index_opt Js.negate Js.lookup];
  rewrite invocations_app; destruct cb; reflexivity.
Qed.

(** C8 (amended). When there is no observer, or the observer returns
  normally with [params] as they were, a scroll whose [scroll_amount] is
  the integer [a] reaches the Action Executor as one
  [computer_mouse_scroll] call whose vertical delta is [a] for direction
  "down" and [-a] for direction "up". *)
Theorem scroll_vertical_delta params (a : Z) cb s :
Js.lookup params "scroll_amount" = Num (Int a) ->
undisturbed cb (Str "scroll") params (host s) ->
exists x y,
  (Js.lookup params "scroll_direction" = Str "down" ->
   invocations (trace_of (executeComputerAction (Str "scroll") params cb s))
   = [("computer_mouse_scroll", scroll_args x y (Num (Int a)))])
  /\ (Js.lookup params "scroll_direction" = Str "up" ->
      invocations (trace_of (executeComputerAction (Str "scroll") params cb s))
      = [("computer_mouse_scroll", scroll_args x y (Num (Int (- a))))]).
Proof.
intros Ha [Hn Hp].
pose proof (scroll_invocations params cb s Hn) as E. cbv zeta in E.
rewrite Hp, Ha in E.
do 2 eexists. split; intro Hd; rewrite Hd in E; exact E.
Qed.




(** C9 (amended). The observer is the first thing [executeComputerAction]
  does, before any call of the Action Executor. When it returns normally
  and leaves [params] as they were, the run goes on exactly as a run
  without observer from the host the observer leaves; when it throws, the
  answer is an error tool result and the Action Executor is not called. *)
Theorem observer_runs_first (f : Observer) action params s :
let o := f action params (host s) in
let s1 := {| host := obs_host o; messages := messages s |} in
(exists t,
    trace_of (executeComputerAction action params (Some f) s)
    = Observe action params :: t)
/\ (obs_thrown o = None -> obs_params o = params ->
    executeComputerAction action params (Some f) s
    = match executeComputerAction action params None s1 with
      | (s', t, r) => (s', Observe action params :: t, r)
      end)
/\ (forall e, obs_thrown o = Some e ->
    executeComputerAction action params (Some f) s
    = (s1,
       [Observe action params;
        ConsoleError ("Error executing " ++ Js.to_string action ++ ":") e],
       Ok {| tr_tool_use_id := Js.lookup (obs_params o) "tool_use_id";
             tr_content := Text ("Error: " ++ error_text e);
             tr_is_error := Some true |})).
Proof.
intros o s1. repeat split.
- rewrite executeComputerAction_run. destruct (try_switch _ _ _ _) as [[s' t] r].
  eexists. reflexivity.
- intros Hn Hp. rewrite !executeComputerAction_run. cbn -[try_switch].
  fold o. rewrite Hn, Hp. fold s1.
  destruct (try_switch action params None s1) as [[s' t] r]. reflexivity.
- intros e He. rewrite executeComputerAction_run. cbn -[try_switch].
  fold o. rewrite He. reflexivity.
Qed.

(** ** The loop *)

Lemma calm_of_within {A} (m : M A) : within m -> calm m.
Proof.
intros H s. destruct (H s) as (Ht & _ & Hr). split; [|exact Hr].
apply inner_no_counters, Ht.
Qed.

Lemma calm_bind {A B} (m : M A) (k : A -> M B) :
calm m -> (forall a, calm (k a)) -> calm (bind m k).
Proof.
intros Hm Hk s. specialize (Hm s). unfold bind.
destruct (m s) as [[s1 t1] [a| e|]];
  cbn [trace_of outcome_of fst snd] in *.
- destruct Hm as [Ht _]. specialize (Hk a s1).
  destruct (k a s1) as [[s2 t2] r]; cbn [trace_of outcome_of fst snd] in *.
  destruct Hk as [Ht2 Hr].
  split; [|exact Hr]. rewrite iteration_counters_app, Ht, Ht2. reflexivity.
- split; [apply Hm | discriminate].
- destruct Hm as [_ Hr]. contradiction.
Qed.

Lemma calm_push (m : Message) : calm (push m).
Proof. intro s. cbn. split; [reflexivity | discriminate]. Qed.

Lemma calm_yield (ev : Event) :
match ev_data ev with Some (IterationData _) => False | _ => True end ->
calm (yield ev).
Proof.
intros H s. cbn. split; [|discriminate].
unfold iteration_counters. cbn. destruct (ev_data ev) as [[n|a p]|];
  [contradiction | reflexivity | reflexivity].
Qed.

Lemma within_emit_blocks blocks : within (emit_blocks blocks).
Proof.
induction blocks as [|block rest IH]; cbn [emit_blocks].
- apply within_ret.
- unfold yield. repeat within_step; exact IH.
Qed.

Lemma within_execute_all toolUses :
forall acc, within (execute_all toolUses acc).
Proof.
induction toolUses as [|toolUse rest IH]; intro acc; cbn [execute_all].
- apply within_ret.
- apply within_bind; [apply within_lift | intro input].
  apply within_bind; [apply within_lift | intro action].
  apply within_bind; [apply within_emit; cbn; tauto | intros _].
  apply within_bind; [apply within_lift | intro id].
  apply within_bind; [apply within_executeComputerAction | intro result].
  apply IH.
Qed.

Lemma calm_on_reply data : calm (on_reply data).
Proof.
  unfold on_reply.
  repeat first
    [ apply calm_push
    | apply calm_yield; exact I
    | apply calm_of_within;
      first [ apply within_lift | apply within_ret
            | apply within_emit_blocks | apply within_execute_all ]
    | apply calm_bind; [| intro]
    | match goal with
      | |- calm (match ?x with _ => _ end) => destruct x
      end ].
Qed.

Lemma calm_on_response response : calm (on_response response).
Proof.
  unfold on_response. destruct (negb (ok response)).
  - apply calm_bind; [apply calm_of_within, within_lift | intro errorText].
    apply calm_bind; [apply calm_yield; exact I | intros _].
    apply calm_of_within, within_ret.
  - apply calm_bind; [apply calm_of_within, within_lift | intro data].
    apply calm_on_reply.
Qed.

(** A round yields its iteration event first and no other one. *)
Lemma round_counters iterations s :
  iteration_counters (trace_of (round iterations s)) = [iterations]
  /\ outcome_of (round iterations s) <> OutOfFuel.
Proof.
  unfold round, bind. cbn -[on_response request].
  unfold call_fetch.
  destruct (tauriFetch _ (host s)) as [h [e|response]]; cbn -[on_response request].
  - split; [reflexivity | discriminate].
  - pose proof (calm_on_response response
                  {| host := h; messages := messages s |}) as [Ht Hr].
    destruct (on_response response _) as [[s2 t2] r];
      cbn [trace_of outcome_of fst snd app] in *.
    split; [|exact Hr].
    change (?a :: ?b :: t2) with ([a; b] ++ t2).
    rewrite iteration_counters_app, Ht. reflexivity.
Qed.









Lemma round_run iterations s :
  round iterations s
  = match tauriFetch (request (messages s)) (host s) with
    | (h, inl e) =>
        ({| host := h; messages := messages s |},
         [Yield (iteration_event iterations); Fetch (request (messages s))],
         Throw e)
    | (h, inr response) =>
        match on_response response {| host := h; messages := messages s |} with
        | (s', t, r) =>
            (s', Yield (iteration_event iterations)
                   :: Fetch (request (messages s)) :: t, r)
        end
    end.
Proof.
  unfold round, bind. cbn -[on_response request]. unfold call_fetch.
  destruct (tauriFetch _ (host s)) as [h [e|response]];
    cbn -[on_response request]; [reflexivity|].
  destruct (on_response response _) as [[s' t] r]. reflexivity.
Qed.

Lemma while_loop_exit fuel iterations s :
  maxIterations config <= iterations ->
  while_loop fuel iterations s = (s, [Yield budget_event], Ok tt).
Proof.
  intro H. apply Z.ltb_ge in H. destruct fuel; cbn [while_loop]; rewrite H;
    reflexivity.
Qed.

Lemma while_loop_step fuel iterations s :
  iterations < maxIterations config ->
  while_loop (S fuel) iterations s
  = match round (iterations + 1) s with
    | (s1, t1, Ok Return) => (s1, t1, Ok tt)
    | (s1, t1, Ok Continue) =>
        match while_loop fuel (iterations + 1) s1 with
        | (s2, t2, r) => (s2, t1 ++ t2, r)
        end
    | (s1, t1, Throw e) => (s1, t1, Throw e)
    | (s1, t1, OutOfFuel) => (s1, t1, OutOfFuel)
    end.
Proof.
  intro H. apply Z.ltb_lt in H. cbn [while_loop]. rewrite H. cbv zeta.
  unfold bind. destruct (round (iterations + 1) s) as [[s1 t1] [[|]| e|]];
    try reflexivity.
  cbn [ret]. rewrite app_nil_r. reflexivity.
Qed.

Lemma counters_after_cons from n :
  counters_after from (S n) = (from + 1) :: counters_after (from + 1) n.
Proof.
  unfold counters_after. cbn [seq map]. f_equal.
  rewrite <- seq_shift, map_map. apply map_ext. intro i. lia.
Qed.

(** With enough fuel the loop ends, and its iteration events count up from
    the counter it starts with, never beyond [maxIterations]. *)
Lemma while_loop_counters fuel :
  forall iterations s,
    (Z.to_nat (maxIterations config - iterations) <= fuel)%nat ->
    exists n,
      iteration_counters (trace_of (while_loop fuel iterations s))
      = counters_after iterations n
      /\ (n = 0%nat \/ iterations + Z.of_nat n <= maxIterations config)
      /\ outcome_of (while_loop fuel iterations s) <> OutOfFuel.
Proof.
  induction fuel as [|fuel IH]; intros iterations s Hfuel.
  - rewrite while_loop_exit by lia. exists 0%nat.
    repeat split; [left; reflexivity | discriminate].
  - destruct (Z_lt_ge_dec iterations (maxIterations config)) as [Hlt|Hge].
    + rewrite while_loop_step by exact Hlt.
      destruct (round_counters (iterations + 1) s) as [Hc Hr].
      destruct (round (iterations + 1) s) as [[s1 t1] [[|]| e|]];
        cbn [trace_of outcome_of fst snd] in *.
      * exists 1%nat. rewrite Hc. repeat split; [right; lia | discriminate].
      * destruct (IH (iterations + 1) s1) as (n & Hn & Hb & Hf); [lia|].
        destruct (while_loop fuel (iterations + 1) s1) as [[s2 t2] r];
          cbn [trace_of outcome_of fst snd] in *.
        exists (S n). rewrite iteration_counters_app, Hc, Hn.
        rewrite counters_after_cons. repeat split; [right; lia | exact Hf].
      * exists 1%nat. rewrite Hc. repeat split; [right; lia | discriminate].
      * contradiction.
    + rewrite while_loop_exit by lia. exists 0%nat.
      repeat split; [left; reflexivity | discriminate].
Qed.

(** The [catch] of the generator turns a throw into the failure event. *)
Lemma resume_run fuel iterations s :
  resume fuel iterations s
  = match while_loop fuel iterations s with
    | (s1, t1, Throw e) =>
        (s1, t1 ++ [ConsoleError "Computer use agent loop error:" e;
                    Yield (failure_event e)], Ok tt)
    | other => other
    end.
Proof.
  unfold resume, try_catch.
  destruct (while_loop fuel iterations s) as [[s1 t1] [[]| e|]]; reflexivity.
Qed.

Lemma resume_step fuel iterations s :
  iterations < maxIterations config ->
  resume (S fuel) iterations s
  = match round (iterations + 1) s with
    | (s1, t1, Ok Return) => (s1, t1, Ok tt)
    | (s1, t1, Ok Continue) =>
        match resume fuel (iterations + 1) s1 with
        | (s2, t2, r) => (s2, t1 ++ t2, r)
        end
    | (s1, t1, Throw e) =>
        (s1, t1 ++ [ConsoleError "Computer use agent loop error:" e;
                    Yield (failure_event e)], Ok tt)
    | (s1, t1, OutOfFuel) => (s1, t1, OutOfFuel)
    end.
Proof.
  intro H. rewrite resume_run, while_loop_step by exact H.
  destruct (round (iterations + 1) s) as [[s1 t1] [[|]| e|]]; try reflexivity.
  rewrite resume_run.
  destruct (while_loop fuel (iterations + 1) s1) as [[s2 t2] [[]| e|]];
    try reflexivity.
  rewrite app_assoc. reflexivity.
Qed.

Lemma on_response_success response data s :
  ok response = true -> json response = inr data ->
  on_response response s = on_reply data s.
Proof.
  intros Hok Hj. unfold on_response. rewrite Hok, Hj. cbn [negb lift].
  unfold bind at 1. cbn [ret].
  destruct (on_reply data s) as [[s' t] r]. reflexivity.
Qed.







Lemma lift_inv {A} (r : thrown + A) s s1 t1 a :
  lift r s = (s1, t1, Ok a) -> r = inr a /\ s1 = s.
Proof. destruct r; cbn; intro H; inversion H; auto. Qed.







(** C5. A response that is not [ok] ends the session at once: the error
    event "API Error: <status> - <body>" is the last effect, the endpoint
    is not called again and [messages] is as before the call. *)
Theorem transport_error_is_terminal fuel iterations s h response errorText :
  iterations < maxIterations config ->
  tauriFetch (request (messages s)) (host s) = (h, inr response) ->
  ok response = false ->
  text response = inr errorText ->
  resume (S fuel) iterations s
  = ({| host := h; messages := messages s |},
     [Yield (iteration_event (iterations + 1));
      Fetch (request (messages s));
      Yield {| ev_type := EvError;
               ev_content :=
                 Str ("API Error: " ++ Js.decimal (status response)
                        ++ " - " ++ errorText);
               ev_data := None |}],
     Ok tt).
Proof.
  intros Hlt Hf Hok Ht. rewrite resume_step by exact Hlt.
  rewrite round_run, Hf. unfold on_response. rewrite Hok, Ht. reflexivity.
Qed.

Lemma failure_is_no_api_error e response errorText :
  failure_event e <> api_error_event response errorText.
Proof. unfold failure_event, api_error_event. cbn. intro H. discriminate H. Qed.

(** C6 (amended). After an [ok] response, a body that is no JSON, a parsed
    body that is [null], and a [content] that cannot be iterated each end
    the session with the failure event "Error: <message>", which is never
    an "API Error" event; in the last case the assistant turn has already
    been appended. *)
Theorem unreadable_reply_is_terminal fuel iterations s h response :
  iterations < maxIterations config ->
  tauriFetch (request (messages s)) (host s) = (h, inr response) ->
  ok response = true ->
  let failed (turns : list Message) (e : thrown) :=
    resume (S fuel) iterations s
    = ({| host := h; messages := messages s ++ turns |},
       [Yield (iteration_event (iterations + 1));
        Fetch (request (messages s));
        ConsoleError "Computer use agent loop error:" e;
        Yield (failure_event e)],
       Ok tt) in
  (forall e, json response = inl e -> failed [] e)
  /\ (forall data e,
         json response = inr data -> Js.get data "content" = inl e ->
         failed [] e)
  /\ (forall data content e,
         json response = inr data -> Js.get data "content" = inr content ->
         Js.iterate content = inl e ->
         failed [assistant_turn content] e)
  /\ (forall e response' errorText,
         failure_event e <> api_error_event response' errorText).
Proof.
  intros Hlt Hf Hok failed. unfold failed.
  repeat split.
  - intros e Hj. rewrite resume_step by exact Hlt.
    rewrite round_run, Hf. unfold on_response. rewrite Hok, Hj.
    rewrite app_nil_r. reflexivity.
  - intros data e Hj Hc. rewrite resume_step by exact Hlt.
    rewrite round_run, Hf, (on_response_success response data _ Hok Hj).
    unfold on_reply. rewrite Hc. rewrite app_nil_r. reflexivity.
  - intros data content e Hj Hc Hi. rewrite resume_step by exact Hlt.
    rewrite round_run, Hf, (on_response_success response data _ Hok Hj).
    unfold on_reply. rewrite Hc. cbn [lift].
    unfold bind at 1. cbn [ret]. unfold bind at 1. cbn [push].
    rewrite Hi. reflexivity.
  - intros e response' errorText. apply failure_is_no_api_error.
Qed.



(** ** More on the dispatcher *)

Lemma only_ret P {A} (a : A) : only P (ret a).
Proof. intro s. constructor. Qed.

Lemma only_throw P {A} (e : thrown) : only P (@throw A e).
Proof. intro s. constructor. Qed.

Lemma only_lift P {A} (r : thrown + A) : only P (lift r).
Proof. destruct r; [apply only_throw | apply only_ret]. Qed.

Lemma only_bind P {A B} (m : M A) (k : A -> M B) :
  only P m -> (forall a, only P (k a)) -> only P (bind m k).
Proof.
  intros Hm Hk s. specialize (Hm s). unfold bind.
  destruct (m s) as [[s1 t1] [a| e|]]; cbn [trace_of fst snd] in *; auto.
  specialize (Hk a s1). destruct (k a s1) as [[s2 t2] r].
  cbn [trace_of fst snd] in *. apply Forall_app. auto.
Qed.

Lemma only_try_catch P {A} (m : M A) (handler : thrown -> M A) :
  only P m -> (forall e, only P (handler e)) -> only P (try_catch m handler).
Proof.
  intros Hm Hh s. specialize (Hm s). unfold try_catch.
  destruct (m s) as [[s1 t1] [a| e|]]; cbn [trace_of fst snd] in *; auto.
  specialize (Hh e s1). destruct (handler e s1) as [[s2 t2] r].
  cbn [trace_of fst snd] in *. apply Forall_app. auto.
Qed.

Lemma only_emit (P : Effect -> Prop) (e : Effect) : P e -> only P (emit e).
Proof. intros He s. cbn. repeat constructor. exact He. Qed.

Lemma only_push P (m : Message) : only P (push m).
Proof. intro s. constructor. Qed.

Lemma only_get_messages P : only P get_messages.
Proof. intro s. constructor. Qed.

Lemma only_call_invoke (P : Effect -> Prop) cmd args :
  P (Invoke cmd args) -> only P (call_invoke cmd args).
Proof.
  intros He s. unfold call_invoke.
  destruct (invoke cmd args (host s)) as [h [e|v]]; cbn;
    repeat constructor; exact He.
Qed.

Lemma only_call_fetch (P : Effect -> Prop) rq :
  P (Fetch rq) -> only P (call_fetch rq).
Proof.
  intros He s. unfold call_fetch.
  destruct (tauriFetch rq (host s)) as [h [e|v]]; cbn;
    repeat constructor; exact He.
Qed.

Lemma only_notify (P : Effect -> Prop) cb action params :
  P (Observe action params) -> only P (notify cb action params).
Proof.
  intro He. destruct cb as [f|]; [|apply only_ret].
  intro s. cbn. repeat constructor. exact He.
Qed.

Ltac only_step :=
  first
    [ apply only_ret
    | apply only_throw
    | apply only_lift
    | apply only_push
    | apply only_get_messages
    | apply only_call_invoke; exact I
    | apply only_call_fetch; exact I
    | apply only_notify; exact I
    | apply only_emit; cbn; first [exact I | reflexivity]
    | apply only_bind; [| intro]
    | match goal with
      | |- only _ (if ?c then _ else _) => destruct c
      | |- only _ (match ?x with _ => _ end) => destruct x
      | |- only _ (let _ := _ in _) => cbv zeta
      end ].

(** What the [switch] does: nothing at all, ending in a throw or in the
    answer to an unsupported action; or one call of the Action Executor,
    whose rejection it passes on and whose answer it wraps. *)
Lemma switch_action_cases action params s :
  (exists r,
      switch_action action params s = (s, [], r)
      /\ forall x, r = Ok x -> tr_is_error x = Some true)
  \/ (exists cmd args h,
         (exists e,
             invoke cmd args (host s) = (h, inl e)
             /\ switch_action action params s
                = ({| host := h; messages := messages s |},
                   [Invoke cmd args], Throw e))
         \/ (exists answer content,
                invoke cmd args (host s) = (h, inr answer)
                /\ switch_action action params s
                   = ({| host := h; messages := messages s |},
                      [Invoke cmd args],
                      Ok {| tr_tool_use_id := Js.lookup params "tool_use_id";
                            tr_content := content;
                            tr_is_error := None |})
                /\ (content = Text answer
                    \/ content = Image "image/jpeg" answer))).
Proof.
  unfold switch_action.
  repeat match goal with
         | |- context [if Js.is_string action ?l then _ else _] =>
             destruct (Js.is_string action l)
         end;
    cbv zeta; unfold bind;
    repeat match goal with
           | |- context [lift ?r s] =>
               destruct r as [?e|?v]; cbn [lift throw ret];
               [left; eexists; split; [reflexivity | discriminate] |]
           end;
    try (left; eexists; split;
         [reflexivity | intros x Hx; inversion Hx; reflexivity]);
    right;
    match goal with
    | |- context [call_invoke ?cmd ?args] =>
        exists cmd, args; unfold call_invoke;
        destruct (invoke cmd args (host s)) as [h0 [e0|answer]] eqn:E;
        exists h0; cbn;
        [ left; exists e0; split; reflexivity
        | right; do 2 eexists; split; [reflexivity|];
          split; [reflexivity | auto] ]
    end.
Qed.

(** The dispatcher as a whole, in the two cases of the [switch]. *)
Lemma try_switch_cases action params raised s :
  (exists e,
      try_switch action params raised s
      = (s, [ConsoleError ("Error executing " ++ Js.to_string action ++ ":") e],
         Ok {| tr_tool_use_id := Js.lookup params "tool_use_id";
               tr_content := Text ("Error: " ++ error_text e);
               tr_is_error := Some true |}))
  \/ (exists r,
         try_switch action params raised s = (s, [], Ok r)
         /\ tr_is_error r = Some true)
  \/ (exists cmd args h e,
         invoke cmd args (host s) = (h, inl e)
         /\ raised = None
         /\ try_switch action params raised s
            = ({| host := h; messages := messages s |},
               [Invoke cmd args;
                ConsoleError ("Error executing " ++ Js.to_string action ++ ":")
                             e],
               Ok {| tr_tool_use_id := Js.lookup params "tool_use_id";
                     tr_content := Text ("Error: " ++ error_text e);
                     tr_is_error := Some true |}))
  \/ (exists cmd args h answer content,
         invoke cmd args (host s) = (h, inr answer)
         /\ raised = None
         /\ try_switch action params raised s
            = ({| host := h; messages := messages s |},
               [Invoke cmd args],
               Ok {| tr_tool_use_id := Js.lookup params "tool_use_id";
                     tr_content := content;
                     tr_is_error := None |})
         /\ (content = Text answer \/ content = Image "image/jpeg" answer)).
Proof.
  unfold try_switch, try_catch. destruct raised as [e|].
  - left. exists e. reflexivity.
  - destruct (switch_action_cases action params s)
      as [(r & E & Hr) | (cmd & args & h & [(e & Ei & E) | (answer & content & Ei & E & Hc)])];
      rewrite E.
    + destruct r as [x| e|].
      * right. left. exists x. split; [reflexivity | apply Hr; reflexivity].
      * left. exists e. reflexivity.
      * exfalso.
        pose proof (within_switch_action action params s) as (_ & _ & Hf).
        rewrite E in Hf. apply Hf. reflexivity.
    + right. right. left. exists cmd, args, h, e. auto.
    + right. right. right. exists cmd, args, h, answer, content. auto.
Qed.


(** X2. A tool result without [is_error] is only returned after the one
    call of the Action Executor was answered, and it carries that
    answer: as text, or for a screenshot as a JPEG image. *)
Theorem success_means_executor_answered action params cb s r :
  outcome_of (executeComputerAction action params cb s) = Ok r ->
  tr_is_error r = None ->
  exists cmd args h answer,
    invocations (trace_of (executeComputerAction action params cb s))
    = [(cmd, args)]
    /\ invoke cmd args (host_after cb action params (host s))
       = (h, inr answer)
    /\ (tr_content r = Text answer
        \/ tr_content r = Image "image/jpeg" answer)
    /\ returns_normally cb action params (host s).
Proof.
  rewrite executeComputerAction_run.
  set (s1 := {| host := host_after cb action params (host s);
                messages := messages s |}).
  assert (Ho : invocations (observed cb action params) = [])
    by (destruct cb; reflexivity).
  destruct (try_switch_cases action (params_after cb action params (host s))
              (thrown_by cb action params (host s)) s1)
    as [(e & E) | [(x & E & Hx) | [(cmd & args & h & e & _ & _ & E)
                                  | (cmd & args & h & answer & content & Ei & Hn & E & Hc)]]];
    rewrite E; cbn [trace_of state_of outcome_of fst snd];
    intros Hr Herr; inversion Hr; subst r; cbn in Herr; try congruence.
  exists cmd, args, h, answer. rewrite invocations_app, Ho. cbn.
  repeat split; auto.
Qed.

(** X3. A pointer action whose [params] have no [coordinate] (it is
    undefined, or null) is answered, when there is no observer or the
    observer returns normally with [params] as they were, with an error
    result that carries the message of the [TypeError] raised by reading
    index 0 of that [coordinate]; the error is logged and the Action
    Executor is not called. *)
Theorem pointer_action_needs_coordinate name params cb s :
  In name pointer_actions ->
  undisturbed cb (Str name) params (host s) ->
  nullish (Js.lookup params "coordinate") = true ->
  let error := ReadOfNullish (Js.lookup params "coordinate") "0" in
  executeComputerAction (Str name) params cb s
  = ({| host := host_after cb (Str name) params (host s);
        messages := messages s |},
     observed cb (Str name) params
       ++ [ConsoleError ("Error executing " ++ name ++ ":") (TypeErr error)],
     Ok {| tr_tool_use_id := Js.lookup params "tool_use_id";
           tr_content := Text ("Error: " ++ engine_message error);
           tr_is_error := Some true |}).
Proof.
  intros Hin [Hn Hp] Hc error. rewrite executeComputerAction_run.
  unfold returns_normally in Hn. rewrite Hn, Hp.
  set (seen := params) in *.
  assert (Hi : Js.index (Js.lookup seen "coordinate") 0
               = inl (TypeErr error))
    by (unfold error; destruct (Js.lookup seen "coordinate");
        try discriminate; reflexivity).
  unfold try_switch, try_catch, pointer_actions in *.
  cbn [In] in Hin.
  destruct Hin as [<- | [<- | [<- | [<- | [<- | []]]]]];
    unfold switch_action;
    cbn -[Js.index Js.lookup Js.to_string append];
    rewrite Hi; reflexivity.
Qed.

(** ** More on the loop *)

Lemma bind_ok_inv {A B} (m : M A) (k : A -> M B) s s' t b :
  bind m k s = (s', t, Ok b) ->
  exists s1 t1 a t2,
    m s = (s1, t1, Ok a) /\ k a s1 = (s', t2, Ok b) /\ t = t1 ++ t2.
Proof.
  unfold bind. destruct (m s) as [[s1 t1] [a| e|]]; try discriminate.
  destruct (k a s1) as [[s2 t2] r] eqn:E. intro H. inversion H. subst.
  exists s1, t1, a, t2. auto.
Qed.

Lemma only_switch_action P action params :
  (forall cmd args, P (Invoke cmd args)) ->
  only P (switch_action action params).
Proof.
  intro HP. unfold switch_action.
  repeat first
    [ apply only_ret
    | apply only_lift
    | apply only_call_invoke; apply HP
    | apply only_bind; [| intro]
    | match goal with
      | |- only _ (if ?c then _ else _) => destruct c
      | |- only _ (let _ := _ in _) => cbv zeta
      end ].
Qed.

Lemma only_executeComputerAction (P : Effect -> Prop) action params cb :
  (forall cmd args, P (Invoke cmd args)) ->
  (forall a p, P (Observe a p)) ->
  (forall label e, P (ConsoleError label e)) ->
  only P (executeComputerAction action params cb).
Proof.
  intros Hi Ho Hc. unfold executeComputerAction.
  apply only_bind; [apply only_notify, Ho | intro seen].
  unfold try_switch. apply only_try_catch.
  - destruct (snd seen); [apply only_throw | apply only_switch_action, Hi].
  - intro e. unfold action_failed, console_error.
    apply only_bind; [apply only_emit, Hc | intros _; apply only_ret].
Qed.

Lemma only_emit_blocks (P : Effect -> Prop) blocks :
  (forall ev, P (Yield ev)) -> only P (emit_blocks blocks).
Proof.
  intro HP. induction blocks as [|block rest IH]; cbn [emit_blocks].
  - apply only_ret.
  - unfold yield.
    repeat first
      [ exact IH
      | apply only_ret
      | apply only_lift
      | apply only_emit; apply HP
      | apply only_bind; [| intro]
      | match goal with
        | |- only _ (if ?c then _ else _) => destruct c
        end ].
Qed.

Lemma only_execute_all (P : Effect -> Prop) toolUses :
  (forall ev, P (Yield ev)) ->
  (forall a p, only P (executeComputerAction a p onActionExecuted)) ->
  forall acc, only P (execute_all toolUses acc).
Proof.
  intros Hy Hx.
  induction toolUses as [|toolUse rest IH]; intro acc; cbn [execute_all].
  - apply only_ret.
  - apply only_bind; [apply only_lift | intro input].
    apply only_bind; [apply only_lift | intro action].
    apply only_bind; [apply only_emit, Hy | intros _].
    apply only_bind; [apply only_lift | intro id].
    apply only_bind; [apply Hx | intro result].
    apply IH.
Qed.

Lemma only_on_reply (P : Effect -> Prop) data :
  (forall ev, P (Yield ev)) ->
  (forall a p, only P (executeComputerAction a p onActionExecuted)) ->
  only P (on_reply data).
Proof.
  intros Hy Hx. unfold on_reply, yield.
  repeat first
    [ apply only_ret
    | apply only_lift
    | apply only_push
    | apply only_emit; apply Hy
    | apply only_emit_blocks; exact Hy
    | apply only_execute_all; assumption
    | apply only_bind; [| intro]
    | match goal with
      | |- only _ (if ?c then _ else _) => destruct c
      | |- only _ (match ?x with _ => _ end) => destruct x
      end ].
Qed.

Lemma only_on_response (P : Effect -> Prop) response :
  (forall ev, P (Yield ev)) ->
  (forall a p, only P (executeComputerAction a p onActionExecuted)) ->
  only P (on_response response).
Proof.
  intros Hy Hx. unfold on_response, yield.
  destruct (negb (ok response)).
  - apply only_bind; [apply only_lift | intro errorText].
    apply only_bind; [apply only_emit, Hy | intros _; apply only_ret].
  - apply only_bind; [apply only_lift | intro data].
    apply only_on_reply; assumption.
Qed.

Lemma no_fetch_fetches t : Forall no_fetch t -> fetches t = [].
Proof.
  induction 1 as [|e t He _ IH]; [reflexivity|].
  change (e :: t) with ([e] ++ t). rewrite fetches_app, IH, app_nil_r.
  destruct e; cbn in *; tauto.
Qed.

(** A round calls the endpoint exactly once, with the transcript as it
    is when the round starts. *)
Lemma round_fetches iterations s :
  fetches (trace_of (round iterations s)) = [request (messages s)].
Proof.
  rewrite round_run.
  destruct (tauriFetch _ (host s)) as [h [e|response]]; [reflexivity|].
  pose proof (only_on_response no_fetch response (fun _ => I)
                (fun a p => only_executeComputerAction no_fetch a p
                              onActionExecuted
                              (fun _ _ => I) (fun _ _ => I) (fun _ _ => I))
                {| host := h; messages := messages s |}) as H.
  destruct (on_response response _) as [[s' t] r].
  cbn [trace_of fst snd] in *.
  change (?a :: ?b :: t) with ([a; b] ++ t).
  rewrite fetches_app, (no_fetch_fetches t H). reflexivity.
Qed.

Lemma grows_of_within {A} (m : M A) : within m -> grows m.
Proof.
  intros H s. destruct (H s) as (_ & Hm & _). exists []. rewrite Hm.
  symmetry. apply app_nil_r.
Qed.

Lemma grows_bind {A B} (m : M A) (k : A -> M B) :
  grows m -> (forall a, grows (k a)) -> grows (bind m k).
Proof.
  intros Hm Hk s. specialize (Hm s). unfold bind.
  destruct (m s) as [[s1 t1] [a| e|]]; cbn [state_of fst snd] in *; auto.
  destruct Hm as [add1 Hm]. specialize (Hk a s1).
  destruct (k a s1) as [[s2 t2] r]. cbn [state_of fst snd] in *.
  destruct Hk as [add2 Hk]. exists (add1 ++ add2).
  rewrite Hk, Hm, app_assoc. reflexivity.
Qed.

Lemma grows_push (m : Message) : grows (push m).
Proof. intro s. exists [m]. reflexivity. Qed.

Lemma grows_on_reply data : grows (on_reply data).
Proof.
  unfold on_reply.
  repeat first
    [ apply grows_push
    | apply grows_of_within;
      first [ apply within_lift | apply within_ret
            | apply within_emit_blocks | apply within_execute_all
            | apply within_emit; cbn; tauto ]
    | apply grows_bind; [| intro]
    | match goal with
      | |- grows (match ?x with _ => _ end) => destruct x
      end ].
  - intro s. exists []. cbn. symmetry. apply app_nil_r.
  - intro s. exists []. cbn. symmetry. apply app_nil_r.
Qed.

Lemma grows_round iterations : grows (round iterations).
Proof.
  intro s. rewrite round_run.
  destruct (tauriFetch _ (host s)) as [h [e|response]].
  - exists []. cbn. symmetry. apply app_nil_r.
  - assert (H : grows (on_response response)).
    { unfold on_response. destruct (negb (ok response)).
      - intro s0. unfold bind.
        destruct (text response) as [e|errorText]; cbn;
          exists []; symmetry; apply app_nil_r.
      - apply grows_bind; [apply grows_of_within, within_lift | intro data].
        apply grows_on_reply. }
    specialize (H {| host := h; messages := messages s |}).
    destruct (on_response response _) as [[s' t] r]. exact H.
Qed.

(** A round that goes on has appended the assistant turn and the results
    turn, and nothing else. *)
Lemma on_reply_continue data s s' t :
  on_reply data s = (s', t, Ok Continue) ->
  exists content results,
    messages s' = messages s ++ [assistant_turn content;
                                 results_turn results].
Proof.
  unfold on_reply. intro H.
  apply bind_ok_inv in H as (s1 & t1 & content & t1' & E & H & _).
  apply lift_inv in E as [_ ->].
  apply bind_ok_inv in H as (s2 & t2 & [] & t2' & E & H & _).
  cbn in E. inversion E. subst s2 t2. clear E.
  apply bind_ok_inv in H as (s3 & t3 & blocks & t3' & E & H & _).
  apply lift_inv in E as [_ ->].
  apply bind_ok_inv in H as (s4 & t4 & [] & t4' & E & H & _).
  pose proof (within_emit_blocks blocks
                {| host := host s;
                   messages := messages s ++ [assistant_turn content] |})
    as (_ & Hm4 & _).
  unfold assistant_turn in Hm4. rewrite E in Hm4.
  cbn [state_of fst snd messages] in Hm4.
  apply bind_ok_inv in H as (s5 & t5 & items & t5' & E5 & H & _).
  apply lift_inv in E5 as [_ ->].
  apply bind_ok_inv in H as (s6 & t6 & toolUses & t6' & E6 & H & _).
  apply lift_inv in E6 as [_ ->].
  destruct toolUses as [|toolUse rest].
  - apply bind_ok_inv in H as (s7 & t7 & [] & t7' & _ & H & _).
    cbn in H. inversion H.
  - apply bind_ok_inv in H as (s7 & t7 & results & t7' & E7 & H & _).
    pose proof (within_execute_all (toolUse :: rest) [] s4) as (_ & Hm7 & _).
    rewrite E7 in Hm7. cbn [state_of fst snd] in Hm7.
    apply bind_ok_inv in H as (s8 & t8 & [] & t8' & E8 & H & _).
    cbn in E8. inversion E8. subst s8 t8. clear E8.
    apply bind_ok_inv in H as (s9 & t9 & stop_reason & t9' & E9 & H & _).
    apply lift_inv in E9 as [_ ->].
    destruct (Js.is_string stop_reason "end_turn").
    + apply bind_ok_inv in H as (s10 & t10 & [] & t10' & _ & H & _).
      cbn in H. inversion H.
    + cbn in H. inversion H. subst s'. cbn [messages].
      exists content, results. rewrite Hm7, Hm4, <- app_assoc. reflexivity.
Qed.

Lemma round_continue iterations s s' t :
  round iterations s = (s', t, Ok Continue) ->
  exists content results,
    messages s' = messages s ++ [assistant_turn content;
                                 results_turn results].
Proof.
  rewrite round_run.
  destruct (tauriFetch _ (host s)) as [h [e|response]]; [discriminate|].
  destruct (on_response response _) as [[s1 t1] r] eqn:E.
  intro H. inversion H. subst s1 r. clear H.
  unfold on_response in E. destruct (negb (ok response)).
  - apply bind_ok_inv in E as (s2 & t2 & errorText & t2' & _ & E & _).
    apply bind_ok_inv in E as (s3 & t3 & [] & t3' & _ & E & _).
    cbn in E. inversion E.
  - apply bind_ok_inv in E as (s2 & t2 & data & t2' & E2 & E & _).
    apply lift_inv in E2 as [_ ->].
    apply on_reply_continue in E. exact E.
Qed.

Lemma while_loop_zero iterations s :
  iterations < maxIterations config ->
  while_loop 0 iterations s = (s, [], OutOfFuel).
Proof.
  intro H. apply Z.ltb_lt in H. cbn [while_loop]. rewrite H. reflexivity.
Qed.

Lemma resume_cases fuel iterations s :
  (maxIterations config <= iterations
   /\ resume fuel iterations s = (s, [Yield budget_event], Ok tt))
  \/ (iterations < maxIterations config /\ fuel = 0%nat
      /\ resume fuel iterations s = (s, [], OutOfFuel))
  \/ (iterations < maxIterations config
      /\ exists fuel', fuel = S fuel').
Proof.
  destruct (Z_lt_ge_dec iterations (maxIterations config)) as [Hlt|Hge].
  - right. destruct fuel as [|fuel'].
    + left. rewrite resume_run, while_loop_zero by exact Hlt. auto.
    + right. eauto.
  - left. rewrite resume_run, while_loop_exit by lia. split; [lia | reflexivity].
Qed.

(** From any loop state: the transcript only grows, and every request
    carries the transcript of its moment, a prefix of the final one. *)
Lemma resume_transcript fuel :
  forall iterations s,
    (exists added,
        messages (state_of (resume fuel iterations s)) = messages s ++ added)
    /\ Forall (fun rq =>
                 exists before after,
                   body_messages (req_body rq) = messages s ++ before
                   /\ messages (state_of (resume fuel iterations s))
                      = body_messages (req_body rq) ++ after)
              (fetches (trace_of (resume fuel iterations s))).
Proof.
  assert (Hstill : forall fuel iterations s r,
             resume fuel iterations s = (s, r, Ok tt)
             \/ resume fuel iterations s = (s, r, OutOfFuel) ->
             fetches r = [] ->
             (exists added,
                 messages (state_of (resume fuel iterations s))
                 = messages s ++ added)
             /\ Forall (fun rq =>
                          exists before after,
                            body_messages (req_body rq) = messages s ++ before
                            /\ messages (state_of (resume fuel iterations s))
                               = body_messages (req_body rq) ++ after)
                       (fetches (trace_of (resume fuel iterations s)))).
  { intros f i s r [E|E] Hr; rewrite E; cbn [trace_of state_of fst snd];
      rewrite Hr; (split; [exists []; symmetry; apply app_nil_r | constructor]). }
  induction fuel as [|fuel IH]; intros iterations s.
  { destruct (resume_cases 0 iterations s)
      as [[_ E] | [(_ & _ & E) | (_ & fuel' & Hf)]]; [| | discriminate].
    - eapply Hstill; [left; exact E | reflexivity].
    - eapply Hstill; [right; exact E | reflexivity]. }
  destruct (resume_cases (S fuel) iterations s)
    as [[_ E] | [(_ & Hz & _) | (Hlt' & _)]]; [| discriminate |].
  - eapply Hstill; [left; exact E | reflexivity].
  - rewrite resume_step by exact Hlt'.
    pose proof (round_fetches (iterations + 1) s) as Hfetch.
    destruct (grows_round (iterations + 1) s) as [add1 Hgrow].
    destruct (round (iterations + 1) s) as [[s1 t1] [[|]| e|]];
      cbn [trace_of state_of fst snd] in *.
    + split; [eauto|]. rewrite Hfetch. constructor; [|constructor].
      exists [], add1. cbn. rewrite app_nil_r. auto.
    + destruct (IH (iterations + 1) s1) as [[add2 Hfinal] Hall].
      destruct (resume fuel (iterations + 1) s1) as [[s2 t2] r].
      cbn [trace_of state_of fst snd] in *.
      split; [exists (add1 ++ add2); rewrite Hfinal, Hgrow, app_assoc;
              reflexivity|].
      rewrite fetches_app, Hfetch. cbn [app]. constructor.
      * exists [], (add1 ++ add2). cbn.
        rewrite app_nil_r, Hfinal, Hgrow, app_assoc. auto.
      * eapply Forall_impl; [|exact Hall]. cbn.
        intros rq (before & after & Hb & Ha). exists (add1 ++ before), after.
        split; [rewrite Hb, Hgrow, app_assoc; reflexivity | exact Ha].
    + split; [eauto|]. rewrite fetches_app, Hfetch. cbn.
      constructor; [|constructor].
      exists [], add1. cbn. rewrite app_nil_r. auto.
    + split; [eauto|]. rewrite Hfetch. constructor; [|constructor].
      exists [], add1. cbn. rewrite app_nil_r. auto.
Qed.

(** X6. The transcript of a session only grows from the seed message,
    and every request to the endpoint carries the whole transcript of
    its moment: it starts with the seed message and is a prefix of the
    transcript the session ends with. *)
Theorem transcript_only_grows userMessage h :
  (exists added,
      messages (state_of (computerUseAgentLoop userMessage h))
      = seed userMessage ++ added)
  /\ Forall (fun rq =>
               exists before after,
                 body_messages (req_body rq) = seed userMessage ++ before
                 /\ messages (state_of (computerUseAgentLoop userMessage h))
                    = body_messages (req_body rq) ++ after)
            (fetches (trace_of (computerUseAgentLoop userMessage h))).
Proof.
  exact (resume_transcript (Z.to_nat (maxIterations config)) 0
           {| host := h; messages := seed userMessage |}).
Qed.

Lemma alternates_app turns more :
  forall expected,
    alternates expected (turns ++ more)
    = alternates expected turns
      && alternates (if Nat.odd (length turns)
                     then other_role expected else expected) more.
Proof.
  induction turns as [|turn rest IH]; intro expected; cbn [app alternates length].
  - reflexivity.
  - rewrite IH, Nat.odd_succ, <- Nat.negb_odd, <- andb_assoc.
    destruct (Nat.odd (length rest)), expected; reflexivity.
Qed.

Lemma well_turned_round turns content results :
  well_turned turns ->
  well_turned (turns ++ [assistant_turn content; results_turn results]).
Proof.
  intros [Ha Ho]. split.
  - rewrite alternates_app, Ha, Ho. reflexivity.
  - rewrite length_app, Nat.add_comm. exact Ho.
Qed.

Lemma resume_alternates fuel :
  forall iterations s,
    well_turned (messages s) ->
    Forall (fun rq => well_turned (body_messages (req_body rq)))
           (fetches (trace_of (resume fuel iterations s))).
Proof.
  induction fuel as [|fuel IH]; intros iterations s Hs.
  { destruct (resume_cases 0 iterations s)
      as [[_ E] | [(_ & _ & E) | (_ & fuel' & Hf)]]; [| | discriminate];
      rewrite E; constructor. }
  destruct (resume_cases (S fuel) iterations s)
    as [[_ E] | [(_ & Hz & _) | (Hlt & _)]]; [| discriminate |].
  - rewrite E. constructor.
  - rewrite resume_step by exact Hlt.
    pose proof (round_fetches (iterations + 1) s) as Hfetch.
    destruct (round (iterations + 1) s) as [[s1 t1] [[|]| e|]] eqn:E;
      cbn [trace_of state_of fst snd] in *;
      try (rewrite ?fetches_app, Hfetch; cbn; constructor;
           [exact Hs | constructor]).
    apply round_continue in E as (content & results & Hm).
    specialize (IH (iterations + 1) s1).
    destruct (resume fuel (iterations + 1) s1) as [[s2 t2] r].
    cbn [trace_of state_of fst snd] in *.
    rewrite fetches_app, Hfetch. cbn [app]. constructor; [exact Hs|].
    apply IH. rewrite Hm. apply well_turned_round, Hs.
Qed.

(** X7. In every request of a session the turns alternate between user
    and assistant, from a user turn to a user turn. *)
Theorem requests_alternate userMessage h :
  Forall (fun rq => well_turned (body_messages (req_body rq)))
         (fetches (trace_of (computerUseAgentLoop userMessage h))).
Proof.
  apply resume_alternates. split; reflexivity.
Qed.

Lemma while_loop_calls fuel :
  forall iterations s,
    length (fetches (trace_of (while_loop fuel iterations s)))
    = length (iteration_counters (trace_of (while_loop fuel iterations s))).
Proof.
  induction fuel as [|fuel IH]; intros iterations s;
    destruct (Z_lt_ge_dec iterations (maxIterations config)) as [Hlt|Hge];
    try (rewrite while_loop_exit by lia; reflexivity).
  - rewrite while_loop_zero by exact Hlt. reflexivity.
  - rewrite while_loop_step by exact Hlt.
    pose proof (round_fetches (iterations + 1) s) as Hfetch.
    destruct (round_counters (iterations + 1) s) as [Hcount _].
    destruct (round (iterations + 1) s) as [[s1 t1] [[|]| e|]];
      cbn [trace_of state_of fst snd] in *;
      try (rewrite Hfetch, Hcount; reflexivity).
    specialize (IH (iterations + 1) s1).
    destruct (while_loop fuel (iterations + 1) s1) as [[s2 t2] r].
    cbn [trace_of state_of fst snd] in *.
    rewrite fetches_app, iteration_counters_app, !length_app, Hfetch, Hcount, IH.
    reflexivity.
Qed.

(** X8. A session calls the endpoint once per iteration event, and at
    most [maxIterations] times (not at all when [maxIterations] is not
    positive). *)
Theorem endpoint_calls_are_bounded userMessage h :
  length (fetches (trace_of (computerUseAgentLoop userMessage h)))
  = length (iteration_counters (trace_of (computerUseAgentLoop userMessage h)))
  /\ (length (fetches (trace_of (computerUseAgentLoop userMessage h)))
      <= Z.to_nat (maxIterations config))%nat.
Proof.
  unfold computerUseAgentLoop. rewrite resume_run.
  set (s := {| host := h; messages := seed userMessage |}).
  pose proof (while_loop_calls (Z.to_nat (maxIterations config)) 0 s) as Hcalls.
  destruct (while_loop_counters (Z.to_nat (maxIterations config)) 0 s)
    as (n & Hn & Hb & _); [lia|].
  assert (Hlen : (length (iteration_counters
                            (trace_of (while_loop
                                         (Z.to_nat (maxIterations config)) 0 s)))
                  <= Z.to_nat (maxIterations config))%nat).
  { rewrite Hn. unfold counters_after. rewrite length_map, length_seq. lia. }
  destruct (while_loop _ 0 s) as [[s1 t1] [[]| e|]];
    cbn [trace_of state_of fst snd] in *;
    rewrite ?fetches_app, ?iteration_counters_app, ?length_app, ?Nat.add_0_r;
    cbn [fetches iteration_counters events flat_map app length];
    rewrite ?Nat.add_0_r; split; lia.
Qed.

(** X10. When the endpoint cannot be reached, or the body of a response
    that is not [ok] cannot be read, the session ends at once with the
    failure event "Error: <message>"; the endpoint is not called again
    and [messages] is as before. *)
Theorem network_failure_is_terminal fuel iterations s h e :
  iterations < maxIterations config ->
  tauriFetch (request (messages s)) (host s) = (h, inl e)
  \/ (exists response,
         tauriFetch (request (messages s)) (host s) = (h, inr response)
         /\ ok response = false
         /\ text response = inl e) ->
  resume (S fuel) iterations s
  = ({| host := h; messages := messages s |},
     [Yield (iteration_event (iterations + 1));
      Fetch (request (messages s));
      ConsoleError "Computer use agent loop error:" e;
      Yield {| ev_type := EvError;
               ev_content := Str ("Error: " ++ error_text e);
               ev_data := None |}],
     Ok tt).
Proof.
  intros Hlt [Hf | (response & Hf & Hok & Ht)];
    rewrite resume_step by exact Hlt; rewrite round_run, Hf.
  - reflexivity.
  - unfold on_response. rewrite Hok, Ht. reflexivity.
Qed.

Lemma inner_in_progress t : Forall inner_effect t -> Forall in_progress t.
Proof.
  apply Forall_impl. intros [ev| | | |]; cbn; tauto.
Qed.

Lemma quiet_of_within {A} (m : M A) : within m -> quiet m.
Proof.
  intros H s. destruct (H s) as (Ht & _ & Hr). split; [|exact Hr].
  apply inner_in_progress, Ht.
Qed.

Lemma quiet_step {A} (m : M A) :
  (forall s, exists s' t r,
      m s = (s', t, Ok r) /\ Forall in_progress t) ->
  quiet m.
Proof.
  intros H s. destruct (H s) as (s' & t & r & E & Ht). rewrite E.
  split; [exact Ht | discriminate].
Qed.

Lemma settles_bind {A} (m : M A) (k : A -> M flow) :
  quiet m -> (forall a, settles (k a)) -> settles (bind m k).
Proof.
  intros Hm Hk s. destruct (Hm s) as [Ht Hr]. unfold bind.
  destruct (m s) as [[s1 t1] [a| e|]]; cbn [trace_of outcome_of fst snd] in *.
  - specialize (Hk a s1). destruct (k a s1) as [[s2 t2] [[|]| e|]].
    + destruct Hk as (before & ev & -> & Hev & Hb).
      exists (t1 ++ before), ev. rewrite app_assoc.
      repeat split; auto. apply Forall_app. auto.
    + apply Forall_app. auto.
    + apply Forall_app. auto.
    + exact Hk.
  - exact Ht.
  - apply Hr. reflexivity.
Qed.

Lemma settles_return (ev : Event) :
  terminal ev = true -> settles (bind (yield ev) (fun _ => ret Return)).
Proof.
  intros Hev s. cbn. exists [], ev. repeat split; [exact Hev | constructor].
Qed.

Lemma settles_on_reply data : settles (on_reply data).
Proof.
  unfold on_reply.
  apply settles_bind; [apply quiet_of_within, within_lift | intro content].
  apply settles_bind;
    [apply quiet_step; intro s; do 3 eexists; split;
     [reflexivity | constructor] | intros _].
  apply settles_bind; [apply quiet_of_within, within_lift | intro blocks].
  apply settles_bind; [apply quiet_of_within, within_emit_blocks | intros _].
  apply settles_bind; [apply quiet_of_within, within_lift | intro items].
  apply settles_bind; [apply quiet_of_within, within_lift | intro toolUses].
  destruct toolUses as [|toolUse rest]; [apply settles_return; reflexivity|].
  apply settles_bind; [apply quiet_of_within, within_execute_all | intro results].
  apply settles_bind;
    [apply quiet_step; intro s; do 3 eexists; split;
     [reflexivity | constructor] | intros _].
  apply settles_bind; [apply quiet_of_within, within_lift | intro stop_reason].
  destruct (Js.is_string stop_reason "end_turn");
    [apply settles_return; reflexivity|].
  intro s. cbn. constructor.
Qed.

Lemma settles_round iterations : settles (round iterations).
Proof.
  unfold round.
  apply settles_bind;
    [apply quiet_step; intro s; do 3 eexists; split;
     [reflexivity | repeat constructor] | intros _].
  apply settles_bind;
    [apply quiet_step; intro s; do 3 eexists; split;
     [reflexivity | constructor] | intro turns].
  apply settles_bind.
  { intro s. unfold call_fetch.
    destruct (tauriFetch _ (host s)) as [h [e|response]];
      cbn; split; try discriminate; repeat constructor. }
  intro response. unfold on_response. destruct (negb (ok response)).
  - apply settles_bind; [apply quiet_of_within, within_lift | intro errorText].
    apply settles_return. reflexivity.
  - apply settles_bind; [apply quiet_of_within, within_lift | intro data].
    apply settles_on_reply.
Qed.

Lemma while_loop_settles fuel :
  forall iterations s,
    (Z.to_nat (maxIterations config - iterations) <= fuel)%nat ->
    match while_loop fuel iterations s with
    | (_, t, Ok _) => ends_with_terminal t
    | (_, t, Throw _) => Forall in_progress t
    | (_, _, OutOfFuel) => False
    end.
Proof.
  induction fuel as [|fuel IH]; intros iterations s Hfuel;
    destruct (Z_lt_ge_dec iterations (maxIterations config)) as [Hlt|Hge];
    try (rewrite while_loop_exit by lia;
         exists [], budget_event; repeat split; constructor);
    try lia.
  rewrite while_loop_step by exact Hlt.
  pose proof (settles_round (iterations + 1) s) as Hround.
  destruct (round (iterations + 1) s) as [[s1 t1] [[|]| e|]]; auto.
  specialize (IH (iterations + 1) s1 ltac:(lia)).
  destruct (while_loop fuel (iterations + 1) s1) as [[s2 t2] [[]| e|]].
  - destruct IH as (before & ev & -> & Hev & Hb).
    exists (t1 ++ before), ev. rewrite app_assoc.
    repeat split; auto. apply Forall_app. auto.
  - apply Forall_app. auto.
  - exact IH.
Qed.

(** X9. Every session ends with a terminal event (complete or error),
    which is its last effect and the only terminal event it yields. *)
Theorem session_ends_with_one_terminal_event userMessage h :
  exists before ev,
    trace_of (computerUseAgentLoop userMessage h) = before ++ [Yield ev]
    /\ terminal ev = true
    /\ Forall (fun e => terminal e = false) (events before)
    /\ outcome_of (computerUseAgentLoop userMessage h) = Ok tt.
Proof.
  unfold computerUseAgentLoop. rewrite resume_run.
  set (s := {| host := h; messages := seed userMessage |}).
  pose proof (while_loop_settles (Z.to_nat (maxIterations config)) 0 s
                ltac:(lia)) as H.
  assert (Hev : forall t, Forall in_progress t ->
                          Forall (fun e => terminal e = false) (events t)).
  { induction 1 as [|e t He _ IH]; [constructor|].
    destruct e; cbn in *; auto. }
  destruct (while_loop _ 0 s) as [[s1 t1] [[]| e|]];
    cbn [trace_of outcome_of fst snd].
  - destruct H as (before & ev & -> & Hterm & Hb).
    exists before, ev. auto.
  - exists (t1 ++ [ConsoleError "Computer use agent loop error:" e]),
           (failure_event e).
    rewrite <- app_assoc. repeat split.
    apply Hev, Forall_app. split; [exact H | repeat constructor].
  - contradiction.
Qed.

Lemma no_invoke_invocations t : Forall no_invoke t -> invocations t = [].
Proof.
  induction 1 as [|e t He _ IH]; [reflexivity|].
  change (e :: t) with ([e] ++ t). rewrite invocations_app, IH, app_nil_r.
  destruct e; cbn in *; tauto.
Qed.



(** An observer that throws keeps the dispatcher from the Action
    Executor. *)
Lemma vetoed_dispatch (f : Observer) action params :
  (forall a p h, obs_thrown (f a p h) <> None) ->
  only no_invoke (executeComputerAction action params (Some f)).
Proof.
  intros Hveto s. rewrite executeComputerAction_run. cbn [thrown_by].
  destruct (obs_thrown (f action params (host s))) as [e|] eqn:E;
    [|exfalso; exact (Hveto _ _ _ E)].
  cbn. repeat constructor.
Qed.

Lemma only_while_loop (P : Effect -> Prop) fuel :
  (forall ev, P (Yield ev)) ->
  (forall rq, P (Fetch rq)) ->
  (forall a p, only P (executeComputerAction a p onActionExecuted)) ->
  forall iterations, only P (while_loop fuel iterations).
Proof.
  intros Hy Hf Hx.
  induction fuel as [|fuel IH]; intro iterations; cbn [while_loop];
    destruct (iterations <? maxIterations config);
    try (apply only_emit, Hy); try apply only_throw.
  - intro s. constructor.
  - cbv zeta. apply only_bind.
    + unfold round.
      apply only_bind; [apply only_emit, Hy | intros _].
      apply only_bind; [apply only_get_messages | intro turns].
      apply only_bind; [apply only_call_fetch, Hf | intro response].
      apply only_on_response; assumption.
    + intros [|]; [apply only_ret | apply IH].
Qed.

(** X5. An observer that throws on every call vetoes every action: the
    session never calls the Action Executor. *)
Theorem throwing_observer_vetoes_all_actions (f : Observer) userMessage h :
  onActionExecuted = Some f ->
  (forall a p h', obs_thrown (f a p h') <> None) ->
  invocations (trace_of (computerUseAgentLoop userMessage h)) = [].
Proof.
  intros Hcb Hveto. apply no_invoke_invocations.
  unfold computerUseAgentLoop, resume.
  apply only_try_catch.
  - apply only_while_loop; try (intros; exact I).
    intros a p. rewrite Hcb. apply vetoed_dispatch, Hveto.
  - intro e. unfold loop_failed, console_error, yield.
    apply only_bind; [apply only_emit; exact I | intros _].
    apply only_emit. exact I.
Qed.












End Session.

End ComputerUse.

(** ** The module on the small host *)

Import Demo.

Notation dispatch_with inv :=
  (executeComputerAction inv Demo.string_to_number Demo.engine_message).

Notation session_with inv script max cb :=
  (computerUseAgentLoop inv (endpoint script) Demo.string_to_number
                        Demo.engine_message (config max) "sk-key" None cb).

Notation fresh := {| host := 0%nat; messages := seed "open the menu" |}.

Lemma to_string_array :
  Js.to_string (Arr [Num (Int 1); Null; Str "a"; Arr [Bool true; Num (Int (-2))]])
  = "1,,a,true,-2".
Proof. reflexivity. Qed.

Lemma spread_string :
  Js.spread (Str "ab") = [("0", Str "a"); ("1", Str "b")].
Proof. reflexivity. Qed.

Lemma index_missing_coordinate :
  Js.index Undefined 0 = inl (TypeErr (ReadOfNullish Undefined "0"))
  /\ Js.index_opt Undefined 0 = Undefined.
Proof. split; reflexivity. Qed.

(** [scroll_amount: 5] goes out as -5 for "up" and +5 for "down". *)
Lemma scroll_up_and_down :
  invocations (trace_of (dispatch_with invoke_ok (Str "scroll")
                                       (scroll_params "up" 5) None fresh))
  = [("computer_mouse_scroll",
      scroll_args (Num (Int 0)) (Num (Int 0)) (Num (Int (-5))))]
  /\ invocations (trace_of (dispatch_with invoke_ok (Str "scroll")
                                          (scroll_params "down" 5) None fresh))
     = [("computer_mouse_scroll",
         scroll_args (Num (Int 0)) (Num (Int 0)) (Num (Int 5)))].
Proof. split; vm_compute; reflexivity. Qed.

(** With [maxIterations = 3] and an endpoint that always asks for a click,
    the session makes three rounds and ends with the budget event. *)
Lemma budget_of_three :
  let run := session_with invoke_ok (always (success asks_click)) 3 None
                          "open the menu" 0%nat in
  iteration_counters (trace_of run) = [1; 2; 3]
  /\ length (fetches (trace_of run)) = 3%nat
  /\ last (events (trace_of run)) (complete_event)
     = {| ev_type := EvError;
          ev_content := Str "Reached maximum iterations (3)";
          ev_data := None |}.
Proof. vm_compute. repeat split. Qed.

(** A rejected click is answered with an error result and the session goes
    on to the second endpoint call. *)
Lemma denied_click_goes_on :
  let run := session_with invoke_denied (always (success asks_click)) 2 None
                          "open the menu" 0%nat in
  length (fetches (trace_of run)) = 2%nat
  /\ nth 2 (messages (state_of run)) (results_turn [])
     = results_turn [ {| tr_tool_use_id := Str "toolu_1";
                         tr_content := Text "Error: permission denied";
                         tr_is_error := Some true |} ].
Proof. vm_compute. split; reflexivity. Qed.

(** *** Instances of the theorems *)






Lemma transport_error_is_terminal_witness :
  resume invoke_ok (endpoint (always (inr overloaded)))
         Demo.string_to_number Demo.engine_message (config 3) "sk-key" None
         None 1 0 fresh
  = ({| host := 1%nat; messages := seed "open the menu" |},
     [Yield (iteration_event (config 3) 1);
      Fetch (request (config 3) "sk-key" None (seed "open the menu"));
      Yield {| ev_type := EvError;
               ev_content := Str "API Error: 529 - overloaded";
               ev_data := None |}],
     Ok tt).
Proof.
  apply (transport_error_is_terminal Demo.Host
           invoke_ok (endpoint (always (inr overloaded)))
           Demo.string_to_number Demo.engine_message (config 3) "sk-key" None
           None 0 0 fresh 1%nat overloaded "overloaded"); reflexivity.
Defined.

Lemma unreadable_reply_is_terminal_witness :
  resume invoke_ok (endpoint (always (inr not_json)))
         Demo.string_to_number Demo.engine_message (config 3) "sk-key" None
         None 1 0 fresh
  = ({| host := 1%nat; messages := seed "open the menu" |},
     [Yield (iteration_event (config 3) 1);
      Fetch (request (config 3) "sk-key" None (seed "open the menu"));
      ConsoleError "Computer use agent loop error:"
                   (ErrorObj "Unexpected token '<'");
      Yield {| ev_type := EvError;
               ev_content := Str "Error: Unexpected token '<'";
               ev_data := None |}],
     Ok tt).
Proof.
  apply (proj1 (unreadable_reply_is_terminal Demo.Host
                  invoke_ok (endpoint (always (inr not_json)))
                  Demo.string_to_number Demo.engine_message (config 3)
                  "sk-key" None None 0 0 fresh 1%nat not_json
                  ltac:(reflexivity) eq_refl eq_refl)
               (ErrorObj "Unexpected token '<'")).
  reflexivity.
Defined.

(** C6, as stated, fails: a body that parses but is not a reply of the wire
    contract ends the session as completed, without any error event. *)
Lemma malformed_reply_completes :
  expected_shape odd_reply = false
  /\ events (trace_of (session_with invoke_ok (always (success odd_reply)) 3
                                    None "open the menu" 0%nat))
     = [iteration_event (config 3) 1; complete_event].
Proof. split; vm_compute; reflexivity. Qed.

Lemma unsupported_action_is_reported_witness :
  exists s' t r,
    dispatch_with invoke_ok (Str "fly") [("tool_use_id", Str "toolu_3")]
                  (Some observer_quiet) fresh
    = (s', t, Ok r)
    /\ tr_tool_use_id r = Str "toolu_3"
    /\ tr_is_error r = Some true
    /\ tr_content r = Text "Unsupported action: fly"
    /\ invocations t = [].
Proof.
  apply (unsupported_action_is_reported Demo.Host
           invoke_ok Demo.string_to_number Demo.engine_message
           "fly" [("tool_use_id", Str "toolu_3")]
           (Some observer_quiet) fresh).
  - reflexivity.
  - split; reflexivity.
Defined.

(** C7, as stated, fails: the observer runs inside the [try] before the
    action is looked at, so when it throws the answer to the unsupported
    action "fly" is the observer's failure. *)
Lemma throwing_observer_hides_unsupported :
  supported (Str "fly") = false
  /\ outcome_of (dispatch_with invoke_ok (Str "fly")
                               [("tool_use_id", Str "toolu_3")]
                               (Some observer_throws) fresh)
     = Ok {| tr_tool_use_id := Str "toolu_3";
             tr_content := Text "Error: observer failed";
             tr_is_error := Some true |}.
Proof. split; vm_compute; reflexivity. Qed.

Lemma scroll_vertical_delta_witness :
  (exists x y,
      invocations (trace_of (dispatch_with invoke_ok (Str "scroll")
                                           (scroll_params "down" 5)
                                           (Some observer_quiet) fresh))
      = [("computer_mouse_scroll", scroll_args x y (Num (Int 5)))])
  /\ (exists x y,
         invocations (trace_of (dispatch_with invoke_ok (Str "scroll")
                                              (scroll_params "up" 5)
                                              (Some observer_quiet) fresh))
         = [("computer_mouse_scroll", scroll_args x y (Num (Int (- 5))))]).
Proof.
  split.
  - destruct (scroll_vertical_delta Demo.Host
                invoke_ok Demo.string_to_number Demo.engine_message
                (scroll_params "down" 5) 5 (Some observer_quiet) fresh)
      as (x & y & Hdown & _).
    + reflexivity.
    + split; reflexivity.
    + exists x, y. apply Hdown. reflexivity.
  - destruct (scroll_vertical_delta Demo.Host
                invoke_ok Demo.string_to_number Demo.engine_message
                (scroll_params "up" 5) 5 (Some observer_quiet) fresh)
      as (x & y & _ & Hup).
    + reflexivity.
    + split; reflexivity.
    + exists x, y. apply Hup. reflexivity.
Defined.

(** C8, as stated, fails: the observer is handed the [params] object the
    [switch] reads afterwards, so an observer that rewrites [scroll_amount]
    changes the vertical delta of the call. *)
Lemma observer_changes_scroll_delta :
  Js.lookup (scroll_params "down" 5) "scroll_amount" = Num (Int 5)
  /\ invocations (trace_of (dispatch_with invoke_ok (Str "scroll")
                                          (scroll_params "down" 5)
                                          (Some observer_scrolls_far) fresh))
     = [("computer_mouse_scroll",
         scroll_args (Num (Int 0)) (Num (Int 0)) (Num (Int 500)))].
Proof. split; vm_compute; reflexivity. Qed.

(** C9, as stated, fails: an observer that throws changes the tool result. *)
Lemma throwing_observer_changes_result :
  outcome_of (dispatch_with invoke_ok (Str "left_click") click_params
                            (Some observer_throws) fresh)
  <> outcome_of (dispatch_with invoke_ok (Str "left_click") click_params
                               None fresh).
Proof. vm_compute. discriminate. Qed.

Lemma observer_runs_first_witness :
  dispatch_with invoke_ok (Str "left_click") click_params
                (Some observer_quiet) fresh
  = match dispatch_with invoke_ok (Str "left_click") click_params None fresh with
    | (s', t, r) => (s', Observe (Str "left_click") click_params :: t, r)
    end
  /\ dispatch_with invoke_ok (Str "left_click") click_params
                   (Some observer_throws) fresh
     = (fresh,
        [Observe (Str "left_click") click_params;
         ConsoleError "Error executing left_click:" (ErrorObj "observer failed")],
        Ok {| tr_tool_use_id := Str "toolu_1";
              tr_content := Text "Error: observer failed";
              tr_is_error := Some true |}).
Proof.
  split.
  - apply (proj1 (proj2 (observer_runs_first Demo.Host
                           invoke_ok Demo.string_to_number Demo.engine_message
                           observer_quiet (Str "left_click") click_params fresh)));
      reflexivity.
  - apply (proj2 (proj2 (observer_runs_first Demo.Host
                           invoke_ok Demo.string_to_number Demo.engine_message
                           observer_throws (Str "left_click") click_params fresh))
                 (ErrorObj "observer failed")).
    reflexivity.
Defined.



(** ** The settings panel *)

Unset Implicit Arguments.















(** X12. Whatever the user does in the panel, the display width, the
    display height and the iteration budget stay positive. *)
Theorem settings_keep_numbers_positive changes config :
  Settings.positive_numbers config ->
  Settings.positive_numbers (Settings.after changes config).
Proof.
  unfold Settings.after. revert config.
  induction changes as [|c rest IH]; intros config H; cbn [fold_left];
    [exact H|].
  apply IH. destruct H as (Hw & Hh & Hi).
  destruct c as [b|text|text|name|text|b]; cbn [Settings.handle];
    unfold Settings.handleEnabledChange, Settings.handleDisplayWidthChange,
      Settings.handleDisplayHeightChange, Settings.handleModelChange,
      Settings.handleMaxIterationsChange, Settings.handleLiveFeedbackChange,
      Settings.accepted;
    try (repeat split; assumption);
    (destruct (Settings.parseInt text) as [z|]; [|repeat split; assumption]);
    (destruct (Z.ltb_spec 0 z); repeat split; cbn; assumption).
Qed.



(** ** [shouldUseExtabAPI] *)

(** X15. [shouldUseExtabAPI] answers [true] only when the stored flag is
    exactly "true" and the license command resolved to [true]; unless the
    flag is "true" the license command is not even called and the answer
    is [false]; a rejected license command gives [false] as well. *)
Theorem license_gate (Host : Type)
        (getItem : string -> Host -> thrown + option string)
        (key : string)
        (invoke_value : string -> fields -> Host -> Host * (thrown + value))
        (h : Host) :
  let run := shouldUseExtabAPI getItem key invoke_value h in
  (snd run = Bool true ->
   getItem key h = inr (Some "true")
   /\ invoke_value "check_license_status" [] h
      = (fst (fst run), inr (Bool true)))
  /\ (getItem key h <> inr (Some "true") ->
      snd run = Bool false
      /\ commands (snd (fst run)) = []
      /\ fst (fst run) = h)
  /\ (forall h' e,
         invoke_value "check_license_status" [] h = (h', inl e) ->
         snd run = Bool false).
Proof.
  unfold shouldUseExtabAPI.
  destruct (getItem key h) as [e|[flag|]] eqn:Eg; cbn.
  - repeat split; try discriminate; intros; reflexivity.
  - destruct (String.eqb_spec flag "true") as [->|Hne]; cbn.
    + destruct (invoke_value "check_license_status" [] h) as [h1 [e|answer]];
        cbn; repeat split; try discriminate; try congruence.
    + repeat split; try discriminate; try reflexivity.
  - repeat split; try discriminate; intros; reflexivity.
Qed.

(** *** Instances of the further theorems *)

Lemma success_means_executor_answered_witness :
  exists cmd args h answer,
    invocations (trace_of (dispatch_with invoke_ok (Str "left_click")
                                         click_params None fresh))
    = [(cmd, args)]
    /\ invoke_ok cmd args 0%nat = (h, inr answer)
    /\ (Text "ok" = Text answer \/ Text "ok" = Image "image/jpeg" answer)
    /\ returns_normally None (Str "left_click") click_params 0%nat.
Proof.
  apply (success_means_executor_answered
           Demo.Host invoke_ok Demo.string_to_number Demo.engine_message
           (Str "left_click") click_params None fresh
           {| tr_tool_use_id := Str "toolu_1";
              tr_content := Text "ok";
              tr_is_error := None |});
    reflexivity.
Defined.

Lemma pointer_action_needs_coordinate_witness :
  dispatch_with invoke_ok (Str "double_click")
                [("action", Str "double_click"); ("tool_use_id", Str "toolu_4")]
                None fresh
  = (fresh,
     [ConsoleError "Error executing double_click:"
                   (TypeErr (ReadOfNullish Undefined "0"))],
     Ok {| tr_tool_use_id := Str "toolu_4";
           tr_content :=
             Text "Error: Cannot read properties of undefined (reading '0')";
           tr_is_error := Some true |})
  /\ outcome_of (dispatch_with invoke_ok (Str "left_click")
                               [("action", Str "left_click");
                                ("coordinate", Null);
                                ("tool_use_id", Str "toolu_5")]
                               (Some observer_quiet) fresh)
     = Ok {| tr_tool_use_id := Str "toolu_5";
             tr_content :=
               Text "Error: Cannot read properties of null (reading '0')";
             tr_is_error := Some true |}.
Proof.
  split.
  - apply (pointer_action_needs_coordinate
             Demo.Host invoke_ok Demo.string_to_number Demo.engine_message
             "double_click"
             [("action", Str "double_click"); ("tool_use_id", Str "toolu_4")]
             None fresh).
    + do 4 right. left. reflexivity.
    + split; reflexivity.
    + reflexivity.
  - rewrite (pointer_action_needs_coordinate
               Demo.Host invoke_ok Demo.string_to_number Demo.engine_message
               "left_click"
               [("action", Str "left_click"); ("coordinate", Null);
                ("tool_use_id", Str "toolu_5")]
               (Some observer_quiet) fresh).
    + reflexivity.
    + right. left. reflexivity.
    + split; reflexivity.
    + reflexivity.
Defined.


Lemma throwing_observer_vetoes_all_actions_witness :
  invocations
    (trace_of (session_with invoke_ok (always (success asks_click)) 3
                            (Some observer_throws) "open the menu" 0%nat))
  = [].
Proof.
  apply (throwing_observer_vetoes_all_actions
           Demo.Host invoke_ok (endpoint (always (success asks_click)))
           Demo.string_to_number Demo.engine_message (config 3) "sk-key" None
           (Some observer_throws) observer_throws "open the menu" 0%nat).
  - reflexivity.
  - intros a p h'. discriminate.
Defined.

Lemma network_failure_is_terminal_witness :
  resume invoke_ok (endpoint (always (inl (ErrorObj "Load failed"))))
         Demo.string_to_number Demo.engine_message (config 3) "sk-key" None
         None 1 0 fresh
  = ({| host := 1%nat; messages := seed "open the menu" |},
     [Yield (iteration_event (config 3) 1);
      Fetch (request (config 3) "sk-key" None (seed "open the menu"));
      ConsoleError "Computer use agent loop error:" (ErrorObj "Load failed");
      Yield {| ev_type := EvError;
               ev_content := Str "Error: Load failed";
               ev_data := None |}],
     Ok tt).
Proof.
  apply (network_failure_is_terminal
           Demo.Host invoke_ok
           (endpoint (always (inl (ErrorObj "Load failed"))))
           Demo.string_to_number Demo.engine_message (config 3) "sk-key" None
           None 0 0 fresh 1%nat (ErrorObj "Load failed")).
  - reflexivity.
  - left. reflexivity.
Defined.


Lemma settings_keep_numbers_positive_witness :
  Settings.positive_numbers
    (Settings.after [Settings.TypeMaxIterations "-4";
                     Settings.TypeWidth "800px";
                     Settings.ToggleEnabled false;
                     Settings.TypeHeight ""]
                    (config 10)).
Proof.
  apply (settings_keep_numbers_positive _ (config 10)).
  repeat split; reflexivity.
Defined.



Lemma license_gate_witness :
  let stored (key : string) (h : nat) : thrown + option string :=
    inr (Some "true") in
  let licensed (cmd : string) (args : fields) (h : nat)
    : nat * (thrown + value) := (S h, inr (Bool true)) in
  stored "extab_api_enabled" 0%nat = inr (Some "true")
  /\ licensed "check_license_status" [] 0%nat = (1%nat, inr (Bool true)).
Proof.
  intros stored licensed.
  apply (proj1 (license_gate nat stored "extab_api_enabled" licensed 0%nat)).
  reflexivity.
Defined.
